(** * rrAssistantFe: the game session logic of [src/App.tsx]

    A shallow embedding of the React component [PokemonGuessingGame]:
    its four pieces of component state, the two asynchronous event
    handlers [startNewGame] and [excludeSpecies], the click wiring of the
    JSX that invokes them, and the presentation function
    [getSpeciesBorderColor].

    The handlers are effectful: they call the React state setters,
    [fetch] and [response.json()], and they use [try]/[catch]/[finally].
    They are embedded in a small state-and-exception monad that also
    records every effect in program order, so that statements such as
    "no request is issued" or "the error is reset before the request"
    are statements about the recorded effects. *)

From Stdlib Require Import String Ascii List Bool ZArith NArith Lia.
From Stdlib Require Import DecimalString DecimalN.
From ExtLib Require Import Structures.Monad.
Import ListNotations.
Import MonadNotation.
Local Open Scope string_scope.
Local Open Scope monad_scope.

Set Implicit Arguments.

(** ** Data model (the interfaces at the top of App.tsx) *)

Inductive SpeciesState := AVAILABLE | EXCLUDED.

Inductive GameState := IN_PROGRESS | COMPLETED | FAILED.

Definition SpeciesState_eqb (a b : SpeciesState) : bool :=
  match a, b with
  | AVAILABLE, AVAILABLE | EXCLUDED, EXCLUDED => true
  | _, _ => false
  end.

Definition GameState_eqb (a b : GameState) : bool :=
  match a, b with
  | IN_PROGRESS, IN_PROGRESS | COMPLETED, COMPLETED | FAILED, FAILED => true
  | _, _ => false
  end.

(** [interface Species] *)
Module Species.
Record t := mk {
  name : string;
  imageUrl : option string;
  id : Z;
  form : option string;
  state : SpeciesState
}.
End Species.

(** [interface GameData] *)
Module GameData.
Record t := mk {
  id : Z;
  species : list Species.t;
  gameState : GameState;
  hint : string;
  explanation : string;
  expectedExclusions : Z;
  validGuess : bool
}.
End GameData.

(** [interface ExcludeRequest] *)
Module ExcludeRequest.
Record t := mk {
  gameId : Z;
  speciesId : Z;
  form : option string
}.
End ExcludeRequest.

(** The object kept in [lastClickedSpecies]: [{id: number, form: string | null}]. *)
Module Clicked.
Record t := mk {
  id : Z;
  form : option string
}.
End Clicked.

(** The four [useState] cells of the component. *)
Record AppState := mkApp {
  gameData : option GameData.t;
  loading : bool;
  error : option string;
  lastClickedSpecies : option Clicked.t
}.

(** The initial values passed to [useState]. *)
Definition initialState : AppState :=
  {| gameData := None; loading := false; error := None;
     lastClickedSpecies := None |}.

(** ** The network as the handlers see it *)

(** What a [catch] clause can receive.  The handlers only ask whether the
    value is a [TypeError], whether it is an [Error], and for its message. *)
Inductive Thrown :=
| ThrownTypeError (message : string)
| ThrownError (message : string)      (* any other Error, e.g. SyntaxError *)
| ThrownValue.                        (* a thrown value that is no Error *)

Definition instanceofTypeError (err : Thrown) : bool :=
  match err with ThrownTypeError _ => true | _ => false end.

Definition instanceofError (err : Thrown) : bool :=
  match err with ThrownValue => false | _ => true end.

Definition message (err : Thrown) : string :=
  match err with
  | ThrownTypeError m | ThrownError m => m
  | ThrownValue => ""
  end.

(** The argument of [fetch]: URL and init object. *)
Record Request := mkRequest {
  url : string;
  method : string;
  headers : list (string * string);
  mode : string;
  body : option ExcludeRequest.t       (* JSON.stringify(request), when present *)
}.

(** What [response.json()] does when awaited.  The value it resolves to
    is handed on unchecked, so it need not be a game: [data] is a game of
    the declared shape or [None] for the JSON value null, the other value
    the [gameData] cell is declared to hold. *)
Inductive JsonResult :=
| JsonParsed (data : option GameData.t)
| JsonThrows (err : Thrown).

Record Response := mkResponse {
  status : N;
  json : JsonResult
}.

(** [response.ok]: by the Fetch standard, the status is in the range 200-299. *)
Definition ok (r : Response) : bool :=
  ((200 <=? status r) && (status r <=? 299))%N.

(** What [fetch] does when awaited. *)
Inductive FetchResult :=
| FetchResolves (response : Response)
| FetchRejects (err : Thrown).

Definition Network := Request -> FetchResult.

(** ** Effects and the handler monad *)

Inductive Effect :=
| SetGameData (d : option GameData.t)
| SetLoading (b : bool)
| SetError (e : option string)
| SetLastClickedSpecies (c : option Clicked.t)
| Fetch (req : Request)
| ResponseJson.

Definition apply_effect (st : AppState) (e : Effect) : AppState :=
  match e with
  | SetGameData d =>
      {| gameData := d; loading := loading st; error := error st;
         lastClickedSpecies := lastClickedSpecies st |}
  | SetLoading b =>
      {| gameData := gameData st; loading := b; error := error st;
         lastClickedSpecies := lastClickedSpecies st |}
  | SetError e =>
      {| gameData := gameData st; loading := loading st; error := e;
         lastClickedSpecies := lastClickedSpecies st |}
  | SetLastClickedSpecies c =>
      {| gameData := gameData st; loading := loading st; error := error st;
         lastClickedSpecies := c |}
  | Fetch _ | ResponseJson => st
  end.

(** The component state after a sequence of effects. *)
Definition replay (st : AppState) (es : list Effect) : AppState :=
  fold_left apply_effect es st.

(** One run of a piece of handler code: how it completed, the component
    state it leaves and the effects it performed, oldest first. *)
Record Run (A : Type) := mkRun {
  outcome : Thrown + A;
  final : AppState;
  effects : list Effect
}.

Definition Handler (A : Type) := AppState -> Run A.

Definition hret {A} (a : A) : Handler A :=
  fun st => {| outcome := inr a; final := st; effects := [] |}.

Definition hbind {A B} (m : Handler A) (k : A -> Handler B) : Handler B :=
  fun st =>
    let r := m st in
    match outcome r with
    | inl err => {| outcome := inl err; final := final r; effects := effects r |}
    | inr a =>
        let r' := k a (final r) in
        {| outcome := outcome r'; final := final r';
           effects := effects r ++ effects r' |}
    end.

#[global] Instance Monad_Handler : Monad Handler :=
  {| ret := @hret; bind := @hbind |}.

(** [throw err] *)
Definition throw {A} (err : Thrown) : Handler A :=
  fun st => {| outcome := inl err; final := st; effects := [] |}.

(** Performs one effect on the component state and records it. *)
Definition perform (e : Effect) : Handler unit :=
  fun st => {| outcome := inr tt; final := apply_effect st e; effects := [e] |}.

(** [try { body } catch (err) { handler } finally { finalizer }] *)
Definition try_catch_finally (body : Handler unit)
    (handler : Thrown -> Handler unit) (finalizer : Handler unit)
  : Handler unit :=
  fun st =>
    let r := body st in
    let r1 :=
      match outcome r with
      | inr _ => r
      | inl err =>
          let h := handler err (final r) in
          {| outcome := outcome h; final := final h;
             effects := effects r ++ effects h |}
      end in
    let f := finalizer (final r1) in
    {| outcome := match outcome f with inl e => inl e | inr _ => outcome r1 end;
       final := final f;
       effects := effects r1 ++ effects f |}.

(** The state setters returned by [useState]. *)
Definition setGameData (d : option GameData.t) : Handler unit := perform (SetGameData d).
Definition setLoading (b : bool) : Handler unit := perform (SetLoading b).
Definition setError (e : option string) : Handler unit := perform (SetError e).
Definition setLastClickedSpecies (c : option Clicked.t) : Handler unit :=
  perform (SetLastClickedSpecies c).

(** The value of [gameData] captured by the handler's closure. *)
Definition useGameData : Handler (option GameData.t) :=
  fun st => {| outcome := inr (gameData st); final := st; effects := [] |}.

(** The value of [loading] seen by the rendered JSX. *)
Definition useLoading : Handler bool :=
  fun st => {| outcome := inr (loading st); final := st; effects := [] |}.

(** The value of [lastClickedSpecies] captured by a closure. *)
Definition useLastClickedSpecies : Handler (option Clicked.t) :=
  fun st => {| outcome := inr (lastClickedSpecies st); final := st; effects := [] |}.

(** [await fetch(url, init)] *)
Definition fetch (net : Network) (req : Request) : Handler Response :=
  fun st =>
    {| outcome := match net req with
                  | FetchResolves r => inr r
                  | FetchRejects err => inl err
                  end;
       final := st;
       effects := [Fetch req] |}.

(** [await response.json()] *)
Definition response_json (r : Response) : Handler (option GameData.t) :=
  fun st =>
    {| outcome := match json r with
                  | JsonParsed d => inr d
                  | JsonThrows err => inl err
                  end;
       final := st;
       effects := [ResponseJson] |}.

(** ** Strings *)

(** [s.includes(needle)] *)
Fixpoint includes (needle s : string) : bool :=
  String.prefix needle s ||
  match s with
  | EmptyString => false
  | String _ s' => includes needle s'
  end.

(** A number in a template literal; statuses are non-negative integers. *)
Definition string_of_status (n : N) : string :=
  NilEmpty.string_of_uint (N.to_uint n).

(** [`HTTP error! status: ${response.status}`] *)
Definition http_error_message (n : N) : string :=
  "HTTP error! status: " ++ string_of_status n.

Definition cors_message_new : string :=
  "CORS Error: Unable to connect to backend. Please check your backend CORS configuration or use a proxy.".

Definition cors_message_exclude : string :=
  "CORS Error: Unable to connect to backend. Please check your backend CORS configuration.".

(** ** The handlers *)

Definition API_BASE_URL : string := "".

Definition json_headers : list (string * string) :=
  [("Content-Type", "application/json")].

Definition newGameRequest : Request :=
  {| url := API_BASE_URL ++ "/game/new"; method := "POST";
     headers := json_headers; mode := "cors"; body := None |}.

Definition excludeRequest (request : ExcludeRequest.t) : Request :=
  {| url := API_BASE_URL ++ "/game/exclude"; method := "POST";
     headers := json_headers; mode := "cors"; body := Some request |}.

Section Handlers.

Variable net : Network.

Definition startNewGame : Handler unit :=
  setLoading true ;;
  setError None ;;
  setLastClickedSpecies None ;;
  try_catch_finally
    (response <- fetch net newGameRequest ;;
     (if negb (ok response)
      then throw (ThrownError (http_error_message (status response)))
      else ret tt) ;;
     data <- response_json response ;;
     setGameData data)
    (fun err =>
       if instanceofTypeError err && includes "Failed to fetch" (message err)
       then setError (Some cors_message_new)
       else setError (Some (if instanceofError err then message err
                            else "Failed to start new game")))
    (setLoading false).

Definition excludeSpecies (species : Species.t) : Handler unit :=
  gd <- useGameData ;;
  match gd with
  | None => ret tt
  | Some gameData =>
      if negb (SpeciesState_eqb (Species.state species) AVAILABLE)
         || negb (GameState_eqb (GameData.gameState gameData) IN_PROGRESS)
      then ret tt
      else
        setLoading true ;;
        setError None ;;
        setLastClickedSpecies
          (Some {| Clicked.id := Species.id species;
                   Clicked.form := Species.form species |}) ;;
        let request :=
          {| ExcludeRequest.gameId := GameData.id gameData;
             ExcludeRequest.speciesId := Species.id species;
             ExcludeRequest.form := Species.form species |} in
        try_catch_finally
          (response <- fetch net (excludeRequest request) ;;
           (if negb (ok response)
            then throw (ThrownError (http_error_message (status response)))
            else ret tt) ;;
           data <- response_json response ;;
           setGameData data)
          (fun err =>
             if instanceofTypeError err && includes "Failed to fetch" (message err)
             then setError (Some cors_message_exclude)
             else setError (Some (if instanceofError err then message err
                                  else "Failed to exclude species")))
          (setLoading false)
  end.

(** The two "New Game" buttons: [onClick={startNewGame} disabled={loading}].
    A disabled button dispatches no click. *)
Definition newGameButton_onClick : Handler unit :=
  disabled <- useLoading ;;
  if disabled then ret tt else startNewGame.

(** A card of the grid: [onClick={() => excludeSpecies(species)}]. *)
Definition pokemonCard_onClick (species : Species.t) : Handler unit :=
  excludeSpecies species.

End Handlers.

(** ** Presentation: border colours *)

Definition form_eqb (a b : option string) : bool :=
  match a, b with
  | None, None => true
  | Some x, Some y => String.eqb x y
  | _, _ => false
  end.

Definition RED : string := "#e74c3c".      (* game lost *)
Definition GREEN : string := "#27ae60".    (* correct guess *)
Definition ORANGE : string := "#f39c12".   (* wrong guess but game continues *)
Definition GRAY : string := "#95a5a6".     (* excluded *)
Definition BLUE : string := "#3498db".     (* available *)

Definition getSpeciesBorderColor (st : AppState) (species : Species.t) : string :=
  match gameData st, lastClickedSpecies st with
  | Some gd, Some clicked =>
      if (Species.id species =? Clicked.id clicked)%Z
         && form_eqb (Species.form species) (Clicked.form clicked)
      then
        if GameState_eqb (GameData.gameState gd) FAILED then RED
        else if GameData.validGuess gd then GREEN
        else ORANGE
      else
        if SpeciesState_eqb (Species.state species) EXCLUDED then GRAY else BLUE
  | _, _ =>
      if SpeciesState_eqb (Species.state species) EXCLUDED then GRAY else BLUE
  end.

(** [getSpeciesBorderColor] once more, this time as the closure it is:
    a piece of component code that reads the state cells and could call
    any setter, written in the handler monad. *)
Module Closure.
Definition getSpeciesBorderColor (species : Species.t) : Handler string :=
  gd <- useGameData ;;
  clicked <- useLastClickedSpecies ;;
  let default :=
    if SpeciesState_eqb (Species.state species) EXCLUDED then ret GRAY else ret BLUE in
  match gd, clicked with
  | Some gameData, Some lastClickedSpecies =>
      if (Species.id species =? Clicked.id lastClickedSpecies)%Z
         && form_eqb (Species.form species) (Clicked.form lastClickedSpecies)
      then
        if GameState_eqb (GameData.gameState gameData) FAILED then ret RED
        else if GameData.validGuess gameData then ret GREEN
        else ret ORANGE
      else default
  | _, _ => default
  end.
End Closure.

(** ** Reading a run *)

Fixpoint requests (es : list Effect) : list Request :=
  match es with
  | [] => []
  | Fetch req :: es' => req :: requests es'
  | _ :: es' => requests es'
  end.

(** The messages passed to [setError] with a non-null argument. *)
Fixpoint surfaced (es : list Effect) : list string :=
  match es with
  | [] => []
  | SetError (Some m) :: es' => m :: surfaced es'
  | _ :: es' => surfaced es'
  end.

Definition parses_body (es : list Effect) : bool :=
  existsb (fun e => match e with ResponseJson => true | _ => false end) es.

(** The state in which the first request of a run is issued: the effects
    before the first [Fetch], replayed on the starting state. *)
Fixpoint at_first_fetch (st : AppState) (es : list Effect) : option AppState :=
  match es with
  | [] => None
  | Fetch _ :: _ => Some st
  | e :: es' => at_first_fetch (apply_effect st e) es'
  end.

(** How the try block of a handler can end in its [catch] clause, and with
    which value: [fetch] rejects, the status is not 2xx (the handler throws
    its own [Error]), or [response.json()] throws. *)
Inductive TransportFails : FetchResult -> Thrown -> Prop :=
| NetworkFailure err :
    TransportFails (FetchRejects err) err
| BadStatus r :
    ok r = false ->
    TransportFails (FetchResolves r) (ThrownError (http_error_message (status r)))
| MalformedBody r err :
    ok r = true -> json r = JsonThrows err ->
    TransportFails (FetchResolves r) err.

(** The message a [catch] clause passes to [setError], given the clause's
    two string literals. *)
Definition catch_message (cors fallback : string) (err : Thrown) : string :=
  if instanceofTypeError err && includes "Failed to fetch" (message err)
  then cors
  else if instanceofError err then message err else fallback.

(** The guard on the first line of [excludeSpecies]. *)
Definition exclusion_permitted (st : AppState) (species : Species.t) : bool :=
  match gameData st with
  | None => false
  | Some gd =>
      SpeciesState_eqb (Species.state species) AVAILABLE
      && GameState_eqb (GameData.gameState gd) IN_PROGRESS
  end.

(** The request [excludeSpecies] builds for a species of game [gd]. *)
Definition exclusion_request (gd : GameData.t) (species : Species.t) : Request :=
  excludeRequest
    {| ExcludeRequest.gameId := GameData.id gd;
       ExcludeRequest.speciesId := Species.id species;
       ExcludeRequest.form := Species.form species |}.

Definition clicked_of (species : Species.t) : Clicked.t :=
  {| Clicked.id := Species.id species; Clicked.form := Species.form species |}.

(** The effects of [startNewGame] up to and including its request. *)
Definition start_prelude : list Effect :=
  [SetLoading true; SetError None; SetLastClickedSpecies None;
   Fetch newGameRequest].

(** The effects of a permitted [excludeSpecies] up to and including its
    request. *)
Definition exclude_prelude (gd : GameData.t) (species : Species.t) : list Effect :=
  [SetLoading true; SetError None;
   SetLastClickedSpecies (Some (clicked_of species));
   Fetch (exclusion_request gd species)].

(** The default border colour at the end of [getSpeciesBorderColor]. *)
Definition status_colour (species : Species.t) : string :=
  match Species.state species with EXCLUDED => GRAY | AVAILABLE => BLUE end.

(** ** Sample sessions

    A two-candidate roster, a roster with two forms of one base id, the
    three phases of a game, and a few behaviours of the network. *)

Definition bulbasaur : Species.t :=
  {| Species.name := "Bulbasaur"; Species.imageUrl := None; Species.id := 10;
     Species.form := None; Species.state := AVAILABLE |}.

Definition charmander : Species.t :=
  {| Species.name := "Charmander"; Species.imageUrl := None; Species.id := 11;
     Species.form := None; Species.state := AVAILABLE |}.

Definition bulbasaur_excluded : Species.t :=
  {| Species.name := "Bulbasaur"; Species.imageUrl := None; Species.id := 10;
     Species.form := None; Species.state := EXCLUDED |}.

Definition vulpix_alola : Species.t :=
  {| Species.name := "Vulpix"; Species.imageUrl := None; Species.id := 37;
     Species.form := Some "alola"; Species.state := EXCLUDED |}.

Definition vulpix_kanto : Species.t :=
  {| Species.name := "Vulpix"; Species.imageUrl := None; Species.id := 37;
     Species.form := None; Species.state := AVAILABLE |}.

Definition game_in_progress : GameData.t :=
  {| GameData.id := 1; GameData.species := [bulbasaur; charmander];
     GameData.gameState := IN_PROGRESS; GameData.hint := "a starter";
     GameData.explanation := ""; GameData.expectedExclusions := 1;
     GameData.validGuess := false |}.

Definition game_after_wrong_guess : GameData.t :=
  {| GameData.id := 1; GameData.species := [bulbasaur_excluded; charmander];
     GameData.gameState := IN_PROGRESS; GameData.hint := "a starter";
     GameData.explanation := "not that one"; GameData.expectedExclusions := 1;
     GameData.validGuess := false |}.

Definition game_won : GameData.t :=
  {| GameData.id := 1; GameData.species := [bulbasaur_excluded; charmander];
     GameData.gameState := COMPLETED; GameData.hint := "a starter";
     GameData.explanation := "well done"; GameData.expectedExclusions := 0;
     GameData.validGuess := true |}.

Definition game_lost : GameData.t :=
  {| GameData.id := 1; GameData.species := [bulbasaur_excluded; charmander];
     GameData.gameState := FAILED; GameData.hint := "a starter";
     GameData.explanation := "that was the secret"; GameData.expectedExclusions := 1;
     GameData.validGuess := true |}.

Definition game_with_forms : GameData.t :=
  {| GameData.id := 2; GameData.species := [vulpix_alola; vulpix_kanto];
     GameData.gameState := IN_PROGRESS; GameData.hint := "a fox";
     GameData.explanation := ""; GameData.expectedExclusions := 1;
     GameData.validGuess := true |}.

(** A session at rest showing game [gd], with an optional last click. *)
Definition showing (gd : GameData.t) (clicked : option Clicked.t) : AppState :=
  {| gameData := Some gd; loading := false; error := None;
     lastClickedSpecies := clicked |}.

(** A session with a request in flight. *)
Definition busy_session : AppState :=
  {| gameData := Some game_in_progress; loading := true; error := None;
     lastClickedSpecies := Some {| Clicked.id := 10; Clicked.form := None |} |}.

(** A session at rest that still shows the message of an earlier failure. *)
Definition session_with_old_error : AppState :=
  {| gameData := Some game_in_progress; loading := false;
     error := Some "HTTP error! status: 500";
     lastClickedSpecies := Some {| Clicked.id := 10; Clicked.form := None |} |}.

Definition net_unreachable : Network :=
  fun _ => FetchRejects (ThrownTypeError "Failed to fetch").

(** The same failure as Firefox and Safari word it. *)
Definition net_unreachable_firefox : Network :=
  fun _ => FetchRejects
             (ThrownTypeError "NetworkError when attempting to fetch resource.").

Definition net_unreachable_safari : Network :=
  fun _ => FetchRejects (ThrownTypeError "Load failed").

Definition net_status (n : N) : Network :=
  fun _ => FetchResolves {| status := n; json := JsonParsed (Some game_in_progress) |}.

Definition net_garbled : Network :=
  fun _ => FetchResolves
             {| status := 200;
                json := JsonThrows (ThrownError "Unexpected token < in JSON at position 0") |}.

Definition net_serving (gd : GameData.t) : Network :=
  fun _ => FetchResolves {| status := 200; json := JsonParsed (Some gd) |}.

(** A server that answers 200 with the body [null]. *)
Definition net_serving_null : Network :=
  fun _ => FetchResolves {| status := 200; json := JsonParsed None |}.

(** ** The rendered view

    The JSX returned by the component, as data: which blocks are rendered
    and with which texts, classes and attributes.  The style sheet is left
    out. *)

(** Truthiness of a string in a JSX condition: every string but the
    empty one. *)
Definition truthy (s : string) : bool := negb (s =? "")%string.

(** Truthiness of a [string | null]. *)
Definition truthy_opt (o : option string) : bool :=
  match o with
  | Some s => truthy s
  | None => false
  end.

(** The block returned by [getGameStatusMessage]: the class of the outer
    div, the icon, the heading and the paragraph. *)
Record StatusMessage := mkStatusMessage {
  statusClassName : string;
  statusIcon : string;
  statusHeading : string;
  statusText : string
}.

Definition getGameStatusMessage (st : AppState) : option StatusMessage :=
  match gameData st with
  | None => None
  | Some gd =>
      match GameData.gameState gd with
      | COMPLETED =>
          Some {| statusClassName := "status-message success";
                  statusIcon := "🎉";
                  statusHeading := "Congratulations!";
                  statusText := "You won the game!" |}
      | FAILED =>
          Some {| statusClassName := "status-message failure";
                  statusIcon := "💥";
                  statusHeading := "Game Over!";
                  statusText := "You made an incorrect guess." |}
      | IN_PROGRESS => None
      end
  end.

(** The decimal numeral of an integer, with a minus sign if negative. *)
Definition decimal (z : Z) : string :=
  NilEmpty.string_of_int (Z.to_int z).

(** [Number.MAX_SAFE_INTEGER] *)
Definition MAX_SAFE_INTEGER : Z := 9007199254740991.

(** An id in a template literal.  Up to [MAX_SAFE_INTEGER] in absolute
    value a number is the integer the server sent and prints as its
    decimal numeral.  Beyond that a number is rounded when parsed and,
    from 1e21 on, printed with an exponent: those ids get no text here. *)
Definition string_of_id (z : Z) : option string :=
  if (Z.abs z <=? MAX_SAFE_INTEGER)%Z then Some (decimal z) else None.

(** [species.form || 'default'] *)
Definition form_or_default (form : option string) : string :=
  match form with
  | Some f => if truthy f then f else "default"
  | None => "default"
  end.

(** The React key of a card: [`${species.id}-${species.form || 'default'}`];
    [None] when the id is one whose text is not modelled. *)
Definition card_key (species : Species.t) : option string :=
  option_map (fun id => id ++ "-" ++ form_or_default (Species.form species))
    (string_of_id (Species.id species)).

(** [species.state.toLowerCase()] *)
Definition toLowerCase (s : SpeciesState) : string :=
  match s with
  | AVAILABLE => "available"
  | EXCLUDED => "excluded"
  end.

(** The condition under which a card gets the class [clickable]. *)
Definition clickable (gd : GameData.t) (species : Species.t) : bool :=
  SpeciesState_eqb (Species.state species) AVAILABLE
  && GameState_eqb (GameData.gameState gd) IN_PROGRESS.

Definition card_className (gd : GameData.t) (species : Species.t) : string :=
  "pokemon-card " ++ toLowerCase (Species.state species) ++ " "
  ++ (if clickable gd species then "clickable" else "").

Inductive CardImage :=
| Img (src alt : string)
| NoImage.

(** One card of the grid; [cardClick] is the argument its click passes to
    [excludeSpecies]. *)
Record Card := mkCard {
  cardKey : option string;
  cardClassName : string;
  cardBorderColor : string;
  cardBorderWidth : string;
  cardImage : CardImage;
  cardName : string;
  cardForm : option string;
  cardClick : Species.t
}.

Definition render_card (st : AppState) (gd : GameData.t) (species : Species.t) : Card :=
  {| cardKey := card_key species;
     cardClassName := card_className gd species;
     cardBorderColor := getSpeciesBorderColor st species;
     cardBorderWidth := "4px";
     cardImage := match Species.imageUrl species with
                  | Some u => if truthy u then Img u (Species.name species) else NoImage
                  | None => NoImage
                  end;
     cardName := Species.name species;
     cardForm := match Species.form species with
                 | Some f => if truthy f then Some (" (" ++ f ++ ")") else None
                 | None => None
                 end;
     cardClick := species |}.

Record Button := mkButton {
  buttonClassName : string;
  buttonDisabled : bool;
  buttonLabel : string
}.

Record GameContent := mkGameContent {
  contentStatus : option StatusMessage;
  contentHint : string;
  contentExplanation : option string;
  contentNewGame : Button;
  contentExpectedExclusions : Z;
  contentGrid : list Card
}.

Record View := mkView {
  viewError : option string;
  viewNoGame : option Button;
  viewContent : option GameContent
}.

(** The [return] of the component. *)
Definition render (st : AppState) : View :=
  {| viewError :=
       match error st with
       | Some e => if truthy e then Some ("Error: " ++ e) else None
       | None => None
       end;
     viewNoGame :=
       match gameData st with
       | None =>
           Some {| buttonClassName := "new-game-btn-large";
                   buttonDisabled := loading st;
                   buttonLabel := if loading st then "Loading..." else "Start New Game" |}
       | Some _ => None
       end;
     viewContent :=
       match gameData st with
       | Some gd =>
           Some {| contentStatus := getGameStatusMessage st;
                   contentHint := GameData.hint gd;
                   contentExplanation :=
                     if truthy (GameData.explanation gd)
                     then Some (GameData.explanation gd) else None;
                   contentNewGame :=
                     {| buttonClassName := "new-game-btn";
                        buttonDisabled := loading st;
                        buttonLabel := if loading st then "Loading..." else "New Game" |};
                   contentExpectedExclusions := GameData.expectedExclusions gd;
                   contentGrid := map (render_card st gd) (GameData.species gd) |}
       | None => None
       end |}.

(** ** Played sessions *)

(** A click of the user together with what the network answers to the
    request it causes, if it causes one.  The handler runs to its end
    before the next click. *)
Inductive UserEvent :=
| ClickNewGame (answer : FetchResult)
| ClickCard (species : Species.t) (answer : FetchResult).

Definition dispatch (ev : UserEvent) : Handler unit :=
  match ev with
  | ClickNewGame answer => newGameButton_onClick (fun _ => answer)
  | ClickCard species answer => pokemonCard_onClick (fun _ => answer) species
  end.

Fixpoint play (evs : list UserEvent) (st : AppState) : AppState :=
  match evs with
  | [] => st
  | ev :: evs' => play evs' (final (dispatch ev st))
  end.

(** What the network answers to the request of a click. *)
Definition answer_of (ev : UserEvent) : FetchResult :=
  match ev with
  | ClickNewGame answer => answer
  | ClickCard _ answer => answer
  end.

(** The answers that put a game, not null, into [gameData] if they put
    anything there: all but a 2xx response whose body parses to null. *)
Definition serves_no_null (fr : FetchResult) : bool :=
  match fr with
  | FetchResolves r =>
      negb (ok r) || match json r with JsonParsed None => false | _ => true end
  | FetchRejects _ => true
  end.

Definition well_answered (evs : list UserEvent) : bool :=
  forallb (fun ev => serves_no_null (answer_of ev)) evs.

(** The state of the component with [loading] cleared. *)
Definition idle (st : AppState) : AppState := apply_effect st (SetLoading false).

Definition is_card_click (ev : UserEvent) : bool :=
  match ev with
  | ClickCard _ _ => true
  | ClickNewGame _ => false
  end.

(** ** The two halves of a run

    A handler runs up to [await fetch] when it is called and resumes when
    the response arrives.  The resumed half reads no state cell; it only
    calls setters, so what it does to the component is the replay of its
    effects on whatever state the component is in by then. *)

Fixpoint until_first_fetch (es : list Effect) : list Effect :=
  match es with
  | [] => []
  | Fetch req :: _ => [Fetch req]
  | e :: es' => e :: until_first_fetch es'
  end.

Fixpoint after_first_fetch (es : list Effect) : list Effect :=
  match es with
  | [] => []
  | Fetch _ :: es' => es'
  | _ :: es' => after_first_fetch es'
  end.

(** Two forms of one base id that the card keys cannot tell apart. *)
Definition pikachu_plain : Species.t :=
  {| Species.name := "Pikachu"; Species.imageUrl := None; Species.id := 25;
     Species.form := None; Species.state := AVAILABLE |}.

Definition pikachu_default : Species.t :=
  {| Species.name := "Pikachu"; Species.imageUrl := None; Species.id := 25;
     Species.form := Some "default"; Species.state := AVAILABLE |}.

Definition net_silent_failure : Network :=
  fun _ => FetchRejects (ThrownError "").

(** ** Basic facts *)

Lemma SpeciesState_eqb_eq a b : SpeciesState_eqb a b = true <-> a = b.
Proof. destruct a, b; simpl; split; congruence. Qed.

Lemma GameState_eqb_eq a b : GameState_eqb a b = true <-> a = b.
Proof. destruct a, b; simpl; split; congruence. Qed.

Lemma form_eqb_eq a b : form_eqb a b = true <-> a = b.
Proof.
  destruct a as [x|], b as [y|]; simpl; try (split; congruence).
  rewrite String.eqb_eq. split; congruence.
Qed.

Lemma exclusion_permitted_iff st species :
  exclusion_permitted st species = true <->
  exists gd, gameData st = Some gd
             /\ Species.state species = AVAILABLE
             /\ GameData.gameState gd = IN_PROGRESS.
Proof.
  unfold exclusion_permitted. destruct (gameData st) as [gd|].
  - rewrite andb_true_iff, SpeciesState_eqb_eq, GameState_eqb_eq.
    split.
    + intros [Hs Hg]. exists gd. auto.
    + intros (gd' & E & Hs & Hg). injection E as <-. auto.
  - split; [discriminate | intros (gd & E & _); discriminate].
Qed.

Arguments http_error_message : simpl never.
Arguments includes : simpl never.

Ltac unfold_prims :=
  unfold try_catch_finally, setLoading, setError, setLastClickedSpecies,
    setGameData, useGameData, useLoading, fetch, response_json, perform, throw;
  cbn [bind ret Monad_Handler hbind hret outcome final effects apply_effect app
       gameData loading error lastClickedSpecies negb].

(** ** Runs of [startNewGame] *)

Section StartRuns.

Variable net : Network.
Variable st : AppState.

Lemma startNewGame_success r d :
  net newGameRequest = FetchResolves r -> ok r = true -> json r = JsonParsed d ->
  startNewGame net st =
    {| outcome := inr tt;
       final := {| gameData := d; loading := false; error := None;
                   lastClickedSpecies := None |};
       effects := start_prelude ++ [ResponseJson; SetGameData d; SetLoading false] |}.
Proof.
  intros Hnet Hok Hjson. unfold startNewGame. unfold_prims.
  rewrite Hnet. cbn. rewrite Hok. cbn. rewrite Hjson. reflexivity.
Qed.

Lemma startNewGame_failure fr err :
  net newGameRequest = fr -> TransportFails fr err ->
  exists tried,
    startNewGame net st =
      {| outcome := inr tt;
         final := {| gameData := gameData st; loading := false;
                     error := Some (catch_message cors_message_new
                                      "Failed to start new game" err);
                     lastClickedSpecies := None |};
         effects := start_prelude ++ tried ++
                    [SetError (Some (catch_message cors_message_new
                                       "Failed to start new game" err));
                     SetLoading false] |}
    /\ (tried = [] \/ tried = [ResponseJson])
    /\ (tried = [ResponseJson] -> exists r, fr = FetchResolves r /\ ok r = true).
Proof.
  intros Hnet Hfail. unfold startNewGame. unfold_prims. rewrite Hnet.
  unfold catch_message.
  destruct Hfail as [e | r Hok | r e Hok Hjson]; cbn.
  - exists []. split; [| split; [auto | discriminate]].
    destruct (instanceofTypeError e && includes "Failed to fetch" (message e));
      reflexivity.
  - exists []. rewrite Hok. cbn.
    split; [| split; [auto | discriminate]]. reflexivity.
  - exists [ResponseJson]. rewrite Hok. cbn. rewrite Hjson. cbn.
    split; [| split; [auto | intros _; eauto]].
    destruct (instanceofTypeError e && includes "Failed to fetch" (message e));
      reflexivity.
Qed.

End StartRuns.

(** ** Runs of [excludeSpecies] *)

Section ExcludeRuns.

Variable net : Network.
Variable st : AppState.
Variable species : Species.t.

Lemma excludeSpecies_rejected :
  exclusion_permitted st species = false ->
  excludeSpecies net species st =
    {| outcome := inr tt; final := st; effects := [] |}.
Proof.
  unfold exclusion_permitted, excludeSpecies. unfold_prims.
  destruct (gameData st) as [gd|]; [| reflexivity].
  intros H.
  destruct (SpeciesState_eqb (Species.state species) AVAILABLE),
           (GameState_eqb (GameData.gameState gd) IN_PROGRESS);
    try discriminate H; reflexivity.
Qed.

Variable gd : GameData.t.
Hypothesis Hgame : gameData st = Some gd.
Hypothesis Havailable : Species.state species = AVAILABLE.
Hypothesis Hprogress : GameData.gameState gd = IN_PROGRESS.

Lemma excludeSpecies_success r d :
  net (exclusion_request gd species) = FetchResolves r ->
  ok r = true -> json r = JsonParsed d ->
  excludeSpecies net species st =
    {| outcome := inr tt;
       final := {| gameData := d; loading := false; error := None;
                   lastClickedSpecies := Some (clicked_of species) |};
       effects := exclude_prelude gd species ++ [ResponseJson; SetGameData d; SetLoading false] |}.
Proof.
  intros Hnet Hok Hjson. unfold excludeSpecies. unfold_prims.
  rewrite Hgame, Havailable, Hprogress. cbn.
  fold (exclusion_request gd species). rewrite Hnet. cbn.
  rewrite Hok. cbn. rewrite Hjson. reflexivity.
Qed.

Lemma excludeSpecies_failure fr err :
  net (exclusion_request gd species) = fr -> TransportFails fr err ->
  exists tried,
    excludeSpecies net species st =
      {| outcome := inr tt;
         final := {| gameData := Some gd; loading := false;
                     error := Some (catch_message cors_message_exclude
                                      "Failed to exclude species" err);
                     lastClickedSpecies := Some (clicked_of species) |};
         effects := exclude_prelude gd species ++ tried ++
                    [SetError (Some (catch_message cors_message_exclude
                                       "Failed to exclude species" err));
                     SetLoading false] |}
    /\ (tried = [] \/ tried = [ResponseJson])
    /\ (tried = [ResponseJson] -> exists r, fr = FetchResolves r /\ ok r = true).
Proof.
  intros Hnet Hfail. unfold excludeSpecies. unfold_prims.
  rewrite Hgame, Havailable, Hprogress. cbn.
  fold (exclusion_request gd species). rewrite Hnet.
  unfold catch_message.
  destruct Hfail as [e | r Hok | r e Hok Hjson]; cbn.
  - exists []. split; [| split; [auto | discriminate]].
    destruct (instanceofTypeError e && includes "Failed to fetch" (message e));
      cbn; rewrite Hgame; reflexivity.
  - exists []. rewrite Hok. cbn. rewrite Hgame.
    split; [| split; [auto | discriminate]]. reflexivity.
  - exists [ResponseJson]. rewrite Hok. cbn. rewrite Hjson. cbn.
    split; [| split; [auto | intros _; eauto]].
    destruct (instanceofTypeError e && includes "Failed to fetch" (message e));
      cbn; rewrite Hgame; reflexivity.
Qed.

End ExcludeRuns.

(** Every response either succeeds or fails in one of the three ways. *)
Lemma transport_outcome (fr : FetchResult) :
  (exists r d, fr = FetchResolves r /\ ok r = true /\ json r = JsonParsed d)
  \/ (exists err, TransportFails fr err).
Proof.
  destruct fr as [r|err].
  - destruct (ok r) eqn:Hok.
    + destruct (json r) as [d|err] eqn:Hjson.
      * left. eauto.
      * right. exists err. now apply MalformedBody.
    + right. eexists. now apply BadStatus.
  - right. exists err. constructor.
Qed.

(** The state a handler leaves is the replay of the effects it recorded. *)
Lemma startNewGame_final_replay net st :
  final (startNewGame net st) = replay st (effects (startNewGame net st)).
Proof.
  destruct (transport_outcome (net newGameRequest))
    as [(r & d & Hnet & Hok & Hjson) | (err & Hfail)].
  - rewrite (startNewGame_success net st Hnet Hok Hjson). reflexivity.
  - destruct (startNewGame_failure net st eq_refl Hfail) as (tried & -> & [-> | ->] & _);
      reflexivity.
Qed.

Lemma excludeSpecies_final_replay net species st :
  final (excludeSpecies net species st)
  = replay st (effects (excludeSpecies net species st)).
Proof.
  destruct (exclusion_permitted st species) eqn:Hp.
  - apply exclusion_permitted_iff in Hp. destruct Hp as (gd & Hg & Ha & Hi).
    destruct (transport_outcome (net (exclusion_request gd species)))
      as [(r & d & Hnet & Hok & Hjson) | (err & Hfail)].
    + rewrite (excludeSpecies_success net st species Hg Ha Hi Hnet Hok Hjson).
      reflexivity.
    + destruct (excludeSpecies_failure net st species Hg Ha Hi eq_refl Hfail)
        as (tried & -> & [-> | ->] & _); cbn; now rewrite <- Hg; destruct st.
  - rewrite (excludeSpecies_rejected net st species Hp). reflexivity.
Qed.

(** The state in which the request of a handler goes out. *)
Lemma startNewGame_at_first_fetch net st :
  at_first_fetch st (effects (startNewGame net st))
  = Some {| gameData := gameData st; loading := true; error := None;
            lastClickedSpecies := None |}.
Proof.
  destruct (transport_outcome (net newGameRequest))
    as [(r & d & Hnet & Hok & Hjson) | (err & Hfail)].
  - rewrite (startNewGame_success net st Hnet Hok Hjson). reflexivity.
  - destruct (startNewGame_failure net st eq_refl Hfail) as (tried & -> & _).
    reflexivity.
Qed.

Lemma excludeSpecies_at_first_fetch net species st :
  at_first_fetch st (effects (excludeSpecies net species st))
  = if exclusion_permitted st species
    then Some {| gameData := gameData st; loading := true; error := None;
                 lastClickedSpecies := Some (clicked_of species) |}
    else None.
Proof.
  destruct (exclusion_permitted st species) eqn:Hp.
  - apply exclusion_permitted_iff in Hp. destruct Hp as (gd & Hg & Ha & Hi).
    destruct (transport_outcome (net (exclusion_request gd species)))
      as [(r & d & Hnet & Hok & Hjson) | (err & Hfail)].
    + rewrite (excludeSpecies_success net st species Hg Ha Hi Hnet Hok Hjson).
      reflexivity.
    + destruct (excludeSpecies_failure net st species Hg Ha Hi eq_refl Hfail)
        as (tried & -> & _).
      reflexivity.
  - rewrite (excludeSpecies_rejected net st species Hp). reflexivity.
Qed.

(** From the request on, that is while it is in flight, [loading] is set. *)
Lemma loading_while_in_flight net species st s :
  at_first_fetch st (effects (startNewGame net st)) = Some s
  \/ at_first_fetch st (effects (excludeSpecies net species st)) = Some s ->
  loading s = true.
Proof.
  rewrite startNewGame_at_first_fetch, excludeSpecies_at_first_fetch.
  destruct (exclusion_permitted st species);
    intros [H | H]; try discriminate H; injection H as <-; reflexivity.
Qed.

Lemma startNewGame_requests net st :
  requests (effects (startNewGame net st)) = [newGameRequest].
Proof.
  destruct (transport_outcome (net newGameRequest))
    as [(r & d & Hnet & Hok & Hjson) | (err & Hfail)].
  - rewrite (startNewGame_success net st Hnet Hok Hjson). reflexivity.
  - destruct (startNewGame_failure net st eq_refl Hfail) as (tried & -> & [-> | ->] & _);
      reflexivity.
Qed.

(** ** The scenarios of a played session *)

Example scenario_start :
  final (startNewGame (net_serving game_in_progress) initialState)
  = showing game_in_progress None
  /\ map (getSpeciesBorderColor (showing game_in_progress None))
         (GameData.species game_in_progress) = [BLUE; BLUE].
Proof. split; reflexivity. Qed.

Example scenario_wrong_guess :
  let st := final (excludeSpecies (net_serving game_after_wrong_guess) bulbasaur
                     (showing game_in_progress None)) in
  st = showing game_after_wrong_guess (Some (clicked_of bulbasaur))
  /\ map (getSpeciesBorderColor st) (GameData.species game_after_wrong_guess)
     = [ORANGE; BLUE].
Proof. split; reflexivity. Qed.

Example scenario_winning_guess :
  let st := final (excludeSpecies (net_serving game_won) charmander
                     (showing game_after_wrong_guess (Some (clicked_of bulbasaur)))) in
  st = showing game_won (Some (clicked_of charmander))
  /\ map (getSpeciesBorderColor st) (GameData.species game_won) = [GRAY; GREEN].
Proof. split; reflexivity. Qed.

Example scenario_losing_guess :
  let st := final (excludeSpecies (net_serving game_lost) charmander
                     (showing game_in_progress None)) in
  map (getSpeciesBorderColor st) (GameData.species game_lost) = [GRAY; RED].
Proof. reflexivity. Qed.

Example scenario_unreachable :
  final (startNewGame net_unreachable initialState)
  = {| gameData := None; loading := false; error := Some cors_message_new;
       lastClickedSpecies := None |}.
Proof. reflexivity. Qed.

(** ** Requests while one is in flight *)

(** [busy_session] is the state in which the exclusion of Bulbasaur is
    under way. *)
Example busy_session_in_flight :
  at_first_fetch (showing game_in_progress None)
    (effects (pokemonCard_onClick net_unreachable bulbasaur
                (showing game_in_progress None)))
  = Some busy_session.
Proof. reflexivity. Qed.

(** C1, as stated, fails: while the exclusion of Bulbasaur is in flight
    and [loading] is set, a click on the card of Charmander is not
    rejected: it reaches the transport with a second request, no failure
    of any kind is produced, and the answer replaces the game data. *)
Lemma busy_card_click_counterexample :
  loading busy_session = true
  /\ requests (effects (pokemonCard_onClick (net_serving game_won) charmander
                          busy_session))
     = [exclusion_request game_in_progress charmander]
  /\ surfaced (effects (pokemonCard_onClick (net_serving game_won) charmander
                          busy_session)) = []
  /\ gameData (final (pokemonCard_onClick (net_serving game_won) charmander
                        busy_session)) = Some game_won.
Proof. repeat split. Qed.

(** Neither handler reads [loading]: a run from a state and the run from
    the same state with [loading] cleared perform the same effects. *)
Lemma startNewGame_ignores_loading net st :
  effects (startNewGame net st) = effects (startNewGame net (idle st))
  /\ final (startNewGame net st) = final (startNewGame net (idle st))
  /\ outcome (startNewGame net st) = outcome (startNewGame net (idle st)).
Proof. repeat split. Qed.

Lemma excludeSpecies_ignores_loading net species st :
  effects (excludeSpecies net species st)
  = effects (excludeSpecies net species (idle st))
  /\ outcome (excludeSpecies net species st)
     = outcome (excludeSpecies net species (idle st)).
Proof.
  unfold excludeSpecies, idle. unfold_prims.
  destruct (gameData st) as [gd|]; [| split; reflexivity].
  destruct (negb (SpeciesState_eqb (Species.state species) AVAILABLE)
            || negb (GameState_eqb (GameData.gameState gd) IN_PROGRESS));
    [split; reflexivity |].
  cbn.
  destruct (net _) as [r | err]; cbn.
  - destruct (ok r); cbn.
    + destruct (json r); cbn.
      * split; reflexivity.
      * destruct (instanceofTypeError err
                  && includes "Failed to fetch" (message err));
          split; reflexivity.
    + split; reflexivity.
  - destruct (instanceofTypeError err && includes "Failed to fetch" (message err));
      split; reflexivity.
Qed.

(** C1, amended: there is no busy failure, and neither handler tests
    [loading]: [startNewGame] and [excludeSpecies] perform the same
    effects whether a request is in flight or not.  So while [loading]
    is set, [excludeSpecies] on an available candidate of a game in
    progress still issues its request, and [startNewGame], when called,
    still issues its own.  The one gate is the [disabled={loading}]
    attribute of the "New Game" buttons: while [loading] is set the
    button that is rendered is disabled and a click on it runs nothing. *)
Theorem loading_gates_only_the_buttons net st species :
  loading st = true ->
  effects (startNewGame net st) = effects (startNewGame net (idle st))
  /\ effects (excludeSpecies net species st)
     = effects (excludeSpecies net species (idle st))
  /\ requests (effects (startNewGame net st)) = [newGameRequest]
  /\ (forall gd, gameData st = Some gd ->
        Species.state species = AVAILABLE ->
        GameData.gameState gd = IN_PROGRESS ->
        requests (effects (excludeSpecies net species st))
        = [exclusion_request gd species])
  /\ newGameButton_onClick net st = {| outcome := inr tt; final := st; effects := [] |}
  /\ (forall b, viewNoGame (render st) = Some b -> buttonDisabled b = true)
  /\ (forall c, viewContent (render st) = Some c ->
        buttonDisabled (contentNewGame c) = true).
Proof.
  intros Hbusy.
  split; [apply startNewGame_ignores_loading |].
  split; [apply excludeSpecies_ignores_loading |].
  split; [apply startNewGame_requests |].
  split; [| split; [| split]].
  - intros gd Hg Ha Hi.
    destruct (transport_outcome (net (exclusion_request gd species)))
      as [(r & d & Hnet & Hok & Hjson) | (err & Hfail)].
    + rewrite (excludeSpecies_success net st species Hg Ha Hi Hnet Hok Hjson).
      reflexivity.
    + destruct (excludeSpecies_failure net st species Hg Ha Hi eq_refl Hfail)
        as (tried & -> & [-> | ->] & _); reflexivity.
  - unfold newGameButton_onClick. unfold_prims. rewrite Hbusy. reflexivity.
  - unfold render. cbn [viewNoGame]. destruct (gameData st); [discriminate |].
    intros b E. injection E as <-. exact Hbusy.
  - unfold render. cbn [viewContent]. destruct (gameData st); [| discriminate].
    intros c E. injection E as <-. exact Hbusy.
Qed.

Lemma loading_gates_only_the_buttons_witness :
  loading busy_session = true
  /\ requests (effects (excludeSpecies net_unreachable charmander busy_session))
     = [exclusion_request game_in_progress charmander]
  /\ newGameButton_onClick net_unreachable busy_session
     = {| outcome := inr tt; final := busy_session; effects := [] |}.
Proof.
  destruct (loading_gates_only_the_buttons net_unreachable busy_session charmander
              eq_refl) as (_ & _ & _ & Hcard & Hbutton & _).
  split; [reflexivity | split; [| exact Hbutton]].
  exact (Hcard game_in_progress eq_refl eq_refl eq_refl).
Defined.

(** ** Failure of [startNewGame] *)

(** C2, as stated, fails: when a game is on screen and the request for a
    new one fails, the old game is still there afterwards. *)
Lemma start_failure_counterexample :
  TransportFails (net_unreachable newGameRequest) (ThrownTypeError "Failed to fetch")
  /\ gameData (final (startNewGame net_unreachable (showing game_won None)))
     = Some game_won.
Proof. split; [constructor | reflexivity]. Qed.

(** C2, amended: when the transport call of [startNewGame] fails, the
    session snapshot is the one from before the call (so there is no
    session afterwards exactly when there was none before), the failure
    is surfaced as the one error message of the run, the last click is
    forgotten and [loading] is cleared. *)
Theorem start_failure_keeps_snapshot net st err :
  TransportFails (net newGameRequest) err ->
  let r := startNewGame net st in
  let msg := catch_message cors_message_new "Failed to start new game" err in
  gameData (final r) = gameData st
  /\ (gameData st = None -> gameData (final r) = None)
  /\ error (final r) = Some msg
  /\ surfaced (effects r) = [msg]
  /\ lastClickedSpecies (final r) = None
  /\ loading (final r) = false.
Proof.
  intros Hfail r msg. subst r msg.
  destruct (startNewGame_failure net st eq_refl Hfail) as (tried & -> & Htried & _).
  cbn [final effects gameData error lastClickedSpecies loading].
  repeat split; auto.
  destruct Htried as [-> | ->]; reflexivity.
Qed.

Lemma start_failure_keeps_snapshot_witness :
  TransportFails (net_status 503 newGameRequest)
    (ThrownError (http_error_message 503))
  /\ gameData (final (startNewGame (net_status 503) initialState)) = None
  /\ error (final (startNewGame (net_status 503) initialState))
     = Some "HTTP error! status: 503".
Proof.
  assert (H : TransportFails (net_status 503 newGameRequest)
                (ThrownError (http_error_message 503)))
    by (apply (@BadStatus {| status := 503; json := JsonParsed (Some game_in_progress) |});
        reflexivity).
  split; [exact H |].
  destruct (start_failure_keeps_snapshot (net_status 503) initialState H)
    as (_ & Hnone & Herr & _).
  split; [apply Hnone; reflexivity | exact Herr].
Defined.

(** ** The guard of [excludeSpecies] *)

(** C3, as stated, fails: excluding after the game has ended, or excluding
    an excluded candidate, produces no failure at all; the handler just
    returns. *)
Lemma illegal_exclusion_counterexample :
  GameData.gameState game_won <> IN_PROGRESS
  /\ Species.state bulbasaur_excluded = EXCLUDED
  /\ surfaced (effects (excludeSpecies net_unreachable charmander
                          (showing game_won None))) = []
  /\ error (final (excludeSpecies net_unreachable charmander
                     (showing game_won None))) = None
  /\ surfaced (effects (excludeSpecies net_unreachable bulbasaur_excluded
                          (showing game_after_wrong_guess None))) = []
  /\ error (final (excludeSpecies net_unreachable bulbasaur_excluded
                     (showing game_after_wrong_guess None))) = None.
Proof. repeat split; discriminate. Qed.

(** C3, amended: when the game shown is not in progress, or the candidate
    is excluded, [excludeSpecies] returns on its first line: it issues no
    request and produces no failure of any kind, neither an error message
    nor an exception. *)
Theorem illegal_exclusion_is_silent net st gd species :
  gameData st = Some gd ->
  GameData.gameState gd <> IN_PROGRESS \/ Species.state species = EXCLUDED ->
  let r := excludeSpecies net species st in
  requests (effects r) = []
  /\ surfaced (effects r) = []
  /\ outcome r = inr tt
  /\ error (final r) = error st.
Proof.
  intros Hgame Hillegal r. subst r.
  rewrite excludeSpecies_rejected; [repeat split |].
  unfold exclusion_permitted. rewrite Hgame.
  destruct Hillegal as [Hended | Hexcluded].
  - destruct (GameData.gameState gd); try congruence; apply andb_false_r.
  - rewrite Hexcluded. reflexivity.
Qed.

Lemma illegal_exclusion_is_silent_witness :
  gameData (showing game_lost None) = Some game_lost
  /\ (GameData.gameState game_lost <> IN_PROGRESS
      \/ Species.state charmander = EXCLUDED)
  /\ requests (effects (excludeSpecies (net_serving game_won) charmander
                          (showing game_lost None))) = [].
Proof.
  assert (H : GameData.gameState game_lost <> IN_PROGRESS
              \/ Species.state charmander = EXCLUDED) by (left; discriminate).
  split; [reflexivity | split; [exact H |]].
  apply (illegal_exclusion_is_silent (net_serving game_won)
           (showing game_lost None) charmander eq_refl H).
Defined.

(** C9: a call of [excludeSpecies] that its guard rejects (no game, game
    not in progress, or candidate not available) changes nothing: the
    four state cells keep their values and no effect is performed, so no
    error indication is produced either. *)
Theorem rejected_exclusion_changes_nothing net st species :
  gameData st = None
  \/ (exists gd, gameData st = Some gd /\ GameData.gameState gd <> IN_PROGRESS)
  \/ Species.state species <> AVAILABLE ->
  excludeSpecies net species st = {| outcome := inr tt; final := st; effects := [] |}.
Proof.
  intros Hguard. apply excludeSpecies_rejected.
  destruct (exclusion_permitted st species) eqn:Hp; [| reflexivity].
  apply exclusion_permitted_iff in Hp. destruct Hp as (gd & Hg & Ha & Hi).
  destruct Hguard as [Hnone | [(gd' & Hg' & Hended) | Hnot]]; congruence.
Qed.

Lemma rejected_exclusion_changes_nothing_witness :
  (gameData session_with_old_error = None
   \/ (exists gd, gameData session_with_old_error = Some gd
                  /\ GameData.gameState gd <> IN_PROGRESS)
   \/ Species.state bulbasaur_excluded <> AVAILABLE)
  /\ final (excludeSpecies net_unreachable bulbasaur_excluded session_with_old_error)
     = session_with_old_error.
Proof.
  assert (H : gameData session_with_old_error = None
              \/ (exists gd, gameData session_with_old_error = Some gd
                             /\ GameData.gameState gd <> IN_PROGRESS)
              \/ Species.state bulbasaur_excluded <> AVAILABLE)
    by (right; right; discriminate).
  split; [exact H |].
  rewrite (rejected_exclusion_changes_nothing net_unreachable
             session_with_old_error bulbasaur_excluded H).
  reflexivity.
Defined.

(** ** Failure of a legal exclusion *)

(** C4, as stated, fails for a malformed body that still parses: a legal
    exclusion answered by 200 with the body null takes the success path.
    The game data, roster included, is replaced by null and no failure
    is surfaced. *)
Lemma null_body_counterexample :
  exclusion_permitted (showing game_in_progress None) charmander = true
  /\ gameData (final (excludeSpecies net_serving_null charmander
                        (showing game_in_progress None))) = None
  /\ surfaced (effects (excludeSpecies net_serving_null charmander
                          (showing game_in_progress None))) = []
  /\ error (final (excludeSpecies net_serving_null charmander
                     (showing game_in_progress None))) = None.
Proof. repeat split. Qed.

(** C4, amended: when a legal call of [excludeSpecies] fails because
    [fetch] rejects, the status is outside 2xx or [response.json()]
    throws, the game data held afterwards is exactly the one held
    before, roster included; the failure is surfaced as the one error
    message of the run; and the click recorded for the candidate is
    kept.  A 2xx body that parses is not checked against the expected
    shape: whatever it is, null included, it replaces the game data and
    no failure is surfaced. *)
Theorem exclusion_failure_keeps_state net st gd species :
  gameData st = Some gd ->
  Species.state species = AVAILABLE ->
  GameData.gameState gd = IN_PROGRESS ->
  let r := excludeSpecies net species st in
  (forall err,
     TransportFails (net (exclusion_request gd species)) err ->
     let msg := catch_message cors_message_exclude "Failed to exclude species" err in
     gameData (final r) = gameData st
     /\ option_map GameData.species (gameData (final r)) = Some (GameData.species gd)
     /\ error (final r) = Some msg
     /\ surfaced (effects r) = [msg]
     /\ lastClickedSpecies (final r)
        = Some {| Clicked.id := Species.id species;
                  Clicked.form := Species.form species |})
  /\ (forall resp d,
     net (exclusion_request gd species) = FetchResolves resp ->
     ok resp = true -> json resp = JsonParsed d ->
     gameData (final r) = d
     /\ error (final r) = None
     /\ surfaced (effects r) = []).
Proof.
  intros Hgame Havail Hprog r. subst r. split.
  - intros err Hfail msg. subst msg.
    destruct (excludeSpecies_failure net st species Hgame Havail Hprog eq_refl Hfail)
      as (tried & -> & Htried & _).
    cbn [final effects gameData error lastClickedSpecies option_map].
    rewrite Hgame. repeat split.
    destruct Htried as [-> | ->]; reflexivity.
  - intros resp d Hnet Hok Hjson.
    rewrite (excludeSpecies_success net st species Hgame Havail Hprog Hnet Hok Hjson).
    repeat split.
Qed.

Lemma exclusion_failure_keeps_state_witness :
  TransportFails (net_garbled (exclusion_request game_in_progress charmander))
    (ThrownError "Unexpected token < in JSON at position 0")
  /\ gameData (final (excludeSpecies net_garbled charmander
                        (showing game_in_progress None))) = Some game_in_progress
  /\ error (final (excludeSpecies net_garbled charmander
                     (showing game_in_progress None)))
     = Some "Unexpected token < in JSON at position 0"
  /\ lastClickedSpecies (final (excludeSpecies net_garbled charmander
                                  (showing game_in_progress None)))
     = Some {| Clicked.id := 11; Clicked.form := None |}
  /\ gameData (final (excludeSpecies net_serving_null charmander
                        (showing game_in_progress None))) = None.
Proof.
  assert (H : TransportFails
                (net_garbled (exclusion_request game_in_progress charmander))
                (ThrownError "Unexpected token < in JSON at position 0"))
    by (apply (@MalformedBody
                 {| status := 200;
                    json := JsonThrows
                              (ThrownError "Unexpected token < in JSON at position 0") |});
        reflexivity).
  split; [exact H |].
  destruct (exclusion_failure_keeps_state net_garbled
              (showing game_in_progress None) charmander
              eq_refl eq_refl eq_refl) as (Hfail & _).
  destruct (Hfail _ H) as (Hg & _ & He & _ & Hc).
  destruct (exclusion_failure_keeps_state net_serving_null
              (showing game_in_progress None) charmander
              eq_refl eq_refl eq_refl) as (_ & Hparsed).
  destruct (Hparsed {| status := 200; json := JsonParsed None |} None
              eq_refl eq_refl eq_refl) as (Hnull & _).
  split; [exact Hg | split; [exact He | split; [exact Hc | exact Hnull]]].
Defined.

(** ** Border colours *)

Lemma colours_distinct :
  NoDup [RED; GREEN; ORANGE; GRAY; BLUE].
Proof.
  repeat constructor; cbn; intuition discriminate.
Qed.

Lemma is_last_clicked_iff species clicked :
  (Species.id species =? Clicked.id clicked)%Z
  && form_eqb (Species.form species) (Clicked.form clicked) = true
  <-> Species.id species = Clicked.id clicked
      /\ Species.form species = Clicked.form clicked.
Proof.
  now rewrite andb_true_iff, Z.eqb_eq, form_eqb_eq.
Qed.

Lemma getSpeciesBorderColor_other st species :
  (forall clicked, lastClickedSpecies st = Some clicked ->
     Species.id species <> Clicked.id clicked
     \/ Species.form species <> Clicked.form clicked) ->
  getSpeciesBorderColor st species = status_colour species.
Proof.
  intros Hother. unfold getSpeciesBorderColor, status_colour.
  destruct (gameData st) as [gd|], (lastClickedSpecies st) as [clicked|];
    try (destruct (Species.state species); reflexivity).
  destruct ((Species.id species =? Clicked.id clicked)%Z
            && form_eqb (Species.form species) (Clicked.form clicked)) eqn:E.
  - apply is_last_clicked_iff in E. destruct E as [Hid Hform].
    destruct (Hother clicked eq_refl); contradiction.
  - destruct (Species.state species); reflexivity.
Qed.

(** C5: for the candidate whose id and form are those of the last click,
    the colour is red (lost) whenever the game has FAILED, whatever
    [validGuess] says; otherwise green (correct) when [validGuess] is
    true and orange (incorrect, game continues) when it is false. *)
Theorem clicked_candidate_colour st gd clicked species :
  gameData st = Some gd ->
  lastClickedSpecies st = Some clicked ->
  Species.id species = Clicked.id clicked ->
  Species.form species = Clicked.form clicked ->
  (GameData.gameState gd = FAILED -> getSpeciesBorderColor st species = RED)
  /\ (GameData.gameState gd <> FAILED -> GameData.validGuess gd = true ->
      getSpeciesBorderColor st species = GREEN)
  /\ (GameData.gameState gd <> FAILED -> GameData.validGuess gd = false ->
      getSpeciesBorderColor st species = ORANGE).
Proof.
  intros Hgame Hclicked Hid Hform. unfold getSpeciesBorderColor.
  rewrite Hgame, Hclicked.
  rewrite (proj2 (is_last_clicked_iff species clicked) (conj Hid Hform)).
  repeat split.
  - intros ->. reflexivity.
  - intros Hphase ->. destruct (GameData.gameState gd); try reflexivity; congruence.
  - intros Hphase ->. destruct (GameData.gameState gd); try reflexivity; congruence.
Qed.

Lemma clicked_candidate_colour_witness :
  getSpeciesBorderColor (showing game_lost (Some (clicked_of charmander))) charmander
  = RED
  /\ getSpeciesBorderColor (showing game_won (Some (clicked_of charmander))) charmander
     = GREEN
  /\ getSpeciesBorderColor
       (showing game_after_wrong_guess (Some (clicked_of bulbasaur_excluded)))
       bulbasaur_excluded
     = ORANGE.
Proof.
  split; [| split].
  - apply (clicked_candidate_colour
             (showing game_lost (Some (clicked_of charmander)))
             charmander eq_refl eq_refl eq_refl eq_refl).
    reflexivity.
  - apply (clicked_candidate_colour
             (showing game_won (Some (clicked_of charmander)))
             charmander eq_refl eq_refl eq_refl eq_refl);
      [discriminate | reflexivity].
  - apply (clicked_candidate_colour
             (showing game_after_wrong_guess (Some (clicked_of bulbasaur_excluded)))
             bulbasaur_excluded eq_refl eq_refl eq_refl eq_refl);
      [discriminate | reflexivity].
Defined.

(** C6: the feedback colours go only to a candidate whose id and form are
    both those of the last click.  Any other candidate, one with the same
    id and another form included, gets the colour of its own status: gray
    when EXCLUDED, blue when AVAILABLE. *)
Theorem other_candidate_colour st species :
  (forall clicked, lastClickedSpecies st = Some clicked ->
     Species.id species <> Clicked.id clicked
     \/ Species.form species <> Clicked.form clicked) ->
  (Species.state species = EXCLUDED -> getSpeciesBorderColor st species = GRAY)
  /\ (Species.state species = AVAILABLE -> getSpeciesBorderColor st species = BLUE)
  /\ ~ In (getSpeciesBorderColor st species) [RED; GREEN; ORANGE].
Proof.
  intros Hother. rewrite (getSpeciesBorderColor_other st species Hother).
  unfold status_colour.
  repeat split; try (intros ->; reflexivity).
  destruct (Species.state species); cbn; intuition discriminate.
Qed.

Lemma other_candidate_colour_witness :
  Species.id vulpix_kanto = Species.id vulpix_alola
  /\ getSpeciesBorderColor (showing game_with_forms (Some (clicked_of vulpix_alola)))
       vulpix_kanto = BLUE
  /\ getSpeciesBorderColor (showing game_with_forms (Some (clicked_of vulpix_alola)))
       vulpix_alola = GREEN.
Proof.
  split; [reflexivity | split; [| reflexivity]].
  apply (other_candidate_colour
           (showing game_with_forms (Some (clicked_of vulpix_alola))) vulpix_kanto).
  - intros clicked E. injection E as <-. right. discriminate.
  - reflexivity.
Defined.

(** C8: evaluating the colour of a candidate is pure.  Run as component
    code, the evaluation calls no setter and issues no request, leaves
    every state cell as it was, and yields the colour that depends on
    the game data and the last click alone; so evaluating it twice in a
    row yields the same colour twice, and so do evaluations in states
    that agree on game data and last click. *)
Theorem colour_evaluation_is_pure st species :
  Closure.getSpeciesBorderColor species st
  = {| outcome := inr (getSpeciesBorderColor st species); final := st; effects := [] |}
  /\ (first <- Closure.getSpeciesBorderColor species ;;
      second <- Closure.getSpeciesBorderColor species ;;
      ret (first, second)) st
     = {| outcome := inr (getSpeciesBorderColor st species,
                          getSpeciesBorderColor st species);
          final := st; effects := [] |}
  /\ (forall st',
        gameData st' = gameData st ->
        lastClickedSpecies st' = lastClickedSpecies st ->
        outcome (Closure.getSpeciesBorderColor species st')
        = outcome (Closure.getSpeciesBorderColor species st)).
Proof.
  assert (Hrun : forall s,
             Closure.getSpeciesBorderColor species s
             = {| outcome := inr (getSpeciesBorderColor s species);
                  final := s; effects := [] |}).
  { intros s. unfold Closure.getSpeciesBorderColor, getSpeciesBorderColor.
    unfold useLastClickedSpecies. unfold_prims.
    destruct (gameData s) as [gd|], (lastClickedSpecies s) as [clicked|];
      try (destruct (SpeciesState_eqb (Species.state species) EXCLUDED); reflexivity).
    destruct ((Species.id species =? Clicked.id clicked)%Z
              && form_eqb (Species.form species) (Clicked.form clicked)).
    - destruct (GameState_eqb (GameData.gameState gd) FAILED); [reflexivity |].
      destruct (GameData.validGuess gd); reflexivity.
    - destruct (SpeciesState_eqb (Species.state species) EXCLUDED); reflexivity. }
  split; [apply Hrun | split].
  - cbn [bind ret Monad_Handler]. unfold hbind. rewrite Hrun.
    cbn [outcome final effects]. rewrite Hrun. reflexivity.
  - intros st' Hgame Hclicked. rewrite !Hrun. cbn [outcome].
    unfold getSpeciesBorderColor. now rewrite Hgame, Hclicked.
Qed.

Lemma colour_evaluation_is_pure_witness :
  gameData busy_session = gameData session_with_old_error
  /\ lastClickedSpecies busy_session = lastClickedSpecies session_with_old_error
  /\ outcome (Closure.getSpeciesBorderColor bulbasaur busy_session)
     = outcome (Closure.getSpeciesBorderColor bulbasaur session_with_old_error)
  /\ outcome (Closure.getSpeciesBorderColor bulbasaur busy_session) = inr ORANGE.
Proof.
  destruct (colour_evaluation_is_pure session_with_old_error bulbasaur)
    as (_ & _ & Hsame).
  destruct (colour_evaluation_is_pure busy_session bulbasaur) as (Hrun & _).
  split; [reflexivity | split; [reflexivity | split]].
  - exact (Hsame busy_session eq_refl eq_refl).
  - rewrite Hrun. reflexivity.
Defined.

(** ** Error messages of the transport *)

Lemma ok_false_iff r :
  ok r = false <-> (status r < 200 \/ 299 < status r)%N.
Proof.
  unfold ok. rewrite andb_false_iff, !N.leb_gt. reflexivity.
Qed.

Lemma append_inj_l (p a b : string) : p ++ a = p ++ b -> a = b.
Proof.
  induction p as [|c p IH]; cbn; intros H; [exact H |].
  injection H as H. auto.
Qed.

Lemma string_of_status_inj n n' :
  string_of_status n = string_of_status n' -> n = n'.
Proof.
  unfold string_of_status. intros H.
  apply (f_equal NilEmpty.uint_of_string) in H.
  rewrite !NilEmpty.usu in H. injection H as H.
  now apply DecimalN.Unsigned.to_uint_inj.
Qed.

Lemma http_error_message_inj n n' :
  http_error_message n = http_error_message n' -> n = n'.
Proof.
  unfold http_error_message. intros H.
  apply append_inj_l in H. now apply string_of_status_inj.
Qed.

Lemma cors_message_not_http n :
  cors_message_new <> http_error_message n
  /\ cors_message_exclude <> http_error_message n.
Proof.
  unfold http_error_message, cors_message_new, cors_message_exclude.
  split; cbn; discriminate.
Qed.

Lemma catch_message_http cors fallback n :
  catch_message cors fallback (ThrownError (http_error_message n))
  = http_error_message n.
Proof. reflexivity. Qed.

Lemma catch_message_failed_to_fetch cors fallback m :
  includes "Failed to fetch" m = true ->
  catch_message cors fallback (ThrownTypeError m) = cors.
Proof. unfold catch_message. cbn. now intros ->. Qed.

(** A surfaced message reads as a status message only when it is one the
    handler threw itself or the caught error already carried that text. *)
Lemma http_message_origin cors fallback err n :
  (forall k, cors <> http_error_message k) ->
  (forall k, fallback <> http_error_message k) ->
  catch_message cors fallback err = http_error_message n ->
  instanceofError err = true /\ message err = http_error_message n.
Proof.
  intros Hcors Hfallback. unfold catch_message.
  destruct (instanceofTypeError err && includes "Failed to fetch" (message err)).
  - intros H. now apply Hcors in H.
  - destruct (instanceofError err); [auto |].
    intros H. now apply Hfallback in H.
Qed.

(** A message that no status message equals is surfaced as a message
    that no status message equals. *)
Lemma catch_message_not_http cors fallback err :
  (forall k, cors <> http_error_message k) ->
  (forall k, fallback <> http_error_message k) ->
  (forall k, message err <> http_error_message k) ->
  forall n, catch_message cors fallback err <> http_error_message n.
Proof.
  intros Hcors Hfallback Hmessage n H.
  destruct (@http_message_origin cors fallback err n Hcors Hfallback H) as [_ Hown].
  exact (Hmessage n Hown).
Qed.

Lemma fallback_not_http n :
  "Failed to start new game" <> http_error_message n
  /\ "Failed to exclude species" <> http_error_message n.
Proof. unfold http_error_message. split; cbn; discriminate. Qed.

(** C7: in both handlers, a response whose status is not 2xx surfaces the
    message "HTTP error! status: N" with N the status (which can be read
    back from the message) and [response.json()] is never called.  A
    [fetch] that rejects, whatever value it rejects with, surfaces the
    message of the catch clause: the handler's connection message when
    the value is a TypeError saying "Failed to fetch", the value's own
    message or the handler's fallback otherwise.  The connection message
    is different from every status message, and so is every other
    surfaced message unless the value rejected with carries the text of
    a status message itself. *)
Theorem transport_failure_kinds net st0 st gd species :
  gameData st = Some gd ->
  Species.state species = AVAILABLE ->
  GameData.gameState gd = IN_PROGRESS ->
  let start := startNewGame net st0 in
  let excl := excludeSpecies net species st in
  (forall r, net newGameRequest = FetchResolves r ->
     (status r < 200 \/ 299 < status r)%N ->
     error (final start) = Some (http_error_message (status r))
     /\ parses_body (effects start) = false)
  /\ (forall r, net (exclusion_request gd species) = FetchResolves r ->
     (status r < 200 \/ 299 < status r)%N ->
     error (final excl) = Some (http_error_message (status r))
     /\ parses_body (effects excl) = false)
  /\ (forall err, net newGameRequest = FetchRejects err ->
     error (final start)
     = Some (catch_message cors_message_new "Failed to start new game" err)
     /\ (instanceofTypeError err = true ->
         includes "Failed to fetch" (message err) = true ->
         error (final start) = Some cors_message_new)
     /\ ((forall k, message err <> http_error_message k) ->
         forall n, error (final start) <> Some (http_error_message n)))
  /\ (forall err, net (exclusion_request gd species) = FetchRejects err ->
     error (final excl)
     = Some (catch_message cors_message_exclude "Failed to exclude species" err)
     /\ (instanceofTypeError err = true ->
         includes "Failed to fetch" (message err) = true ->
         error (final excl) = Some cors_message_exclude)
     /\ ((forall k, message err <> http_error_message k) ->
         forall n, error (final excl) <> Some (http_error_message n)))
  /\ (forall n, cors_message_new <> http_error_message n
                /\ cors_message_exclude <> http_error_message n)
  /\ (forall n n', http_error_message n = http_error_message n' -> n = n').
Proof.
  intros Hgame Havail Hprog start excl. subst start excl.
  repeat match goal with |- _ /\ _ => split end.
  - intros r Hnet Hstatus. apply ok_false_iff in Hstatus.
    destruct (startNewGame_failure net st0 Hnet (BadStatus r Hstatus))
      as (tried & -> & Htried & Hparsed).
    cbn [final effects error]. rewrite catch_message_http. split; [reflexivity |].
    destruct Htried as [-> | ->]; [reflexivity |].
    destruct (Hparsed eq_refl) as (r' & E & Hok). injection E as <-. congruence.
  - intros r Hnet Hstatus. apply ok_false_iff in Hstatus.
    destruct (excludeSpecies_failure net st species Hgame Havail Hprog
                Hnet (BadStatus r Hstatus))
      as (tried & -> & Htried & Hparsed).
    cbn [final effects error]. rewrite catch_message_http. split; [reflexivity |].
    destruct Htried as [-> | ->]; [reflexivity |].
    destruct (Hparsed eq_refl) as (r' & E & Hok). injection E as <-. congruence.
  - intros err Hnet.
    destruct (startNewGame_failure net st0 Hnet (NetworkFailure _))
      as (tried & -> & _).
    cbn [final error]. split; [reflexivity | split].
    + intros Htype Hincl. unfold catch_message. now rewrite Htype, Hincl.
    + intros Hmessage n H. injection H as H. revert H.
      apply catch_message_not_http; try exact Hmessage;
        intros k; apply cors_message_not_http || apply fallback_not_http.
  - intros err Hnet.
    destruct (excludeSpecies_failure net st species Hgame Havail Hprog
                Hnet (NetworkFailure _))
      as (tried & -> & _).
    cbn [final error]. split; [reflexivity | split].
    + intros Htype Hincl. unfold catch_message. now rewrite Htype, Hincl.
    + intros Hmessage n H. injection H as H. revert H.
      apply catch_message_not_http; try exact Hmessage;
        intros k; apply cors_message_not_http || apply fallback_not_http.
  - apply cors_message_not_http.
  - apply http_error_message_inj.
Qed.

Lemma transport_failure_kinds_witness :
  error (final (startNewGame (net_status 503) initialState))
  = Some "HTTP error! status: 503"
  /\ parses_body (effects (excludeSpecies (net_status 404) charmander
                             (showing game_in_progress None))) = false
  /\ error (final (startNewGame net_unreachable initialState))
     = Some cors_message_new
  /\ error (final (excludeSpecies net_unreachable charmander
                     (showing game_in_progress None)))
     = Some cors_message_exclude
  /\ error (final (startNewGame net_unreachable_firefox initialState))
     = Some "NetworkError when attempting to fetch resource."
  /\ (forall n, error (final (startNewGame net_unreachable_firefox initialState))
                <> Some (http_error_message n))
  /\ (forall n, error (final (excludeSpecies net_unreachable_safari charmander
                                (showing game_in_progress None)))
                <> Some (http_error_message n)).
Proof.
  pose proof (transport_failure_kinds (net_status 503) initialState
                (showing game_in_progress None) charmander
                eq_refl eq_refl eq_refl) as (H503 & _).
  pose proof (transport_failure_kinds (net_status 404) initialState
                (showing game_in_progress None) charmander
                eq_refl eq_refl eq_refl) as (_ & H404 & _).
  pose proof (transport_failure_kinds net_unreachable initialState
                (showing game_in_progress None) charmander
                eq_refl eq_refl eq_refl) as (_ & _ & Hnew & Hexcl & _).
  pose proof (transport_failure_kinds net_unreachable_firefox initialState
                (showing game_in_progress None) charmander
                eq_refl eq_refl eq_refl) as (_ & _ & Hfirefox & _).
  pose proof (transport_failure_kinds net_unreachable_safari initialState
                (showing game_in_progress None) charmander
                eq_refl eq_refl eq_refl) as (_ & _ & _ & Hsafari & _).
  repeat match goal with |- _ /\ _ => split end.
  - apply (H503 _ eq_refl). right. reflexivity.
  - apply (H404 _ eq_refl). right. reflexivity.
  - apply (Hnew _ eq_refl); reflexivity.
  - apply (Hexcl _ eq_refl); reflexivity.
  - apply (Hfirefox _ eq_refl).
  - apply (Hfirefox _ eq_refl). intros k. unfold http_error_message. cbn. discriminate.
  - apply (Hsafari _ eq_refl). intros k. unfold http_error_message. cbn. discriminate.
Defined.

(** ** The error value when an action begins *)

(** C10: every call of [startNewGame], and every call of [excludeSpecies]
    that issues a request, has set the error to null before the request
    is issued: in the state in which the first request goes out the error
    is null, whatever message an earlier action left. *)
Theorem error_reset_before_request net st species :
  (exists s, at_first_fetch st (effects (startNewGame net st)) = Some s
             /\ error s = None)
  /\ (exclusion_permitted st species = true ->
      exists s, at_first_fetch st (effects (excludeSpecies net species st)) = Some s
                /\ error s = None)
  /\ (forall s, at_first_fetch st (effects (excludeSpecies net species st)) = Some s ->
                error s = None).
Proof.
  rewrite startNewGame_at_first_fetch, excludeSpecies_at_first_fetch.
  split; [| split].
  - eexists. split; reflexivity.
  - intros ->. eexists. split; reflexivity.
  - intros s. destruct (exclusion_permitted st species); [| discriminate].
    intros H. injection H as <-. reflexivity.
Qed.

Lemma error_reset_before_request_witness :
  error session_with_old_error = Some "HTTP error! status: 500"
  /\ exclusion_permitted session_with_old_error charmander = true
  /\ (exists s, at_first_fetch session_with_old_error
                  (effects (excludeSpecies net_unreachable charmander
                              session_with_old_error)) = Some s
                /\ error s = None).
Proof.
  split; [reflexivity | split; [reflexivity |]].
  apply (error_reset_before_request net_unreachable session_with_old_error charmander).
  reflexivity.
Defined.

(** ** How a run ends *)

(** The two ways a run of [startNewGame] can end. *)
Lemma startNewGame_cases net st :
  (exists r d,
      net newGameRequest = FetchResolves r /\ ok r = true /\ json r = JsonParsed d
      /\ startNewGame net st =
           {| outcome := inr tt;
              final := {| gameData := d; loading := false; error := None;
                          lastClickedSpecies := None |};
              effects := start_prelude
                         ++ [ResponseJson; SetGameData d; SetLoading false] |})
  \/ (exists err tried,
      TransportFails (net newGameRequest) err
      /\ (tried = [] \/ tried = [ResponseJson])
      /\ startNewGame net st =
           {| outcome := inr tt;
              final := {| gameData := gameData st; loading := false;
                          error := Some (catch_message cors_message_new
                                           "Failed to start new game" err);
                          lastClickedSpecies := None |};
              effects := start_prelude ++ tried ++
                         [SetError (Some (catch_message cors_message_new
                                            "Failed to start new game" err));
                          SetLoading false] |}).
Proof.
  destruct (transport_outcome (net newGameRequest))
    as [(r & d & Hnet & Hok & Hjson) | (err & Hfail)].
  - left. exists r, d. repeat split; auto.
    apply (startNewGame_success net st Hnet Hok Hjson).
  - right. destruct (startNewGame_failure net st eq_refl Hfail)
      as (tried & Hrun & Htried & _).
    exists err, tried. auto.
Qed.

(** The two ways a permitted run of [excludeSpecies] can end. *)
Lemma excludeSpecies_cases net st species gd :
  gameData st = Some gd ->
  Species.state species = AVAILABLE ->
  GameData.gameState gd = IN_PROGRESS ->
  (exists r d,
      net (exclusion_request gd species) = FetchResolves r
      /\ ok r = true /\ json r = JsonParsed d
      /\ excludeSpecies net species st =
           {| outcome := inr tt;
              final := {| gameData := d; loading := false; error := None;
                          lastClickedSpecies := Some (clicked_of species) |};
              effects := exclude_prelude gd species
                         ++ [ResponseJson; SetGameData d; SetLoading false] |})
  \/ (exists err tried,
      TransportFails (net (exclusion_request gd species)) err
      /\ (tried = [] \/ tried = [ResponseJson])
      /\ excludeSpecies net species st =
           {| outcome := inr tt;
              final := {| gameData := Some gd; loading := false;
                          error := Some (catch_message cors_message_exclude
                                           "Failed to exclude species" err);
                          lastClickedSpecies := Some (clicked_of species) |};
              effects := exclude_prelude gd species ++ tried ++
                         [SetError (Some (catch_message cors_message_exclude
                                            "Failed to exclude species" err));
                          SetLoading false] |}).
Proof.
  intros Hg Ha Hi.
  destruct (transport_outcome (net (exclusion_request gd species)))
    as [(r & d & Hnet & Hok & Hjson) | (err & Hfail)].
  - left. exists r, d. repeat split; auto.
    apply (excludeSpecies_success net st species Hg Ha Hi Hnet Hok Hjson).
  - right. destruct (excludeSpecies_failure net st species Hg Ha Hi eq_refl Hfail)
      as (tried & Hrun & Htried & _).
    exists err, tried. auto.
Qed.


(** X1: neither handler ever throws (every exception of the try block is
    caught, and the catch and finally clauses cannot throw), and a run
    that issued a request has cleared [loading] when it ends; a rejected
    [excludeSpecies] leaves [loading] as it was. *)
Theorem handlers_always_settle net st species :
  outcome (startNewGame net st) = inr tt
  /\ loading (final (startNewGame net st)) = false
  /\ outcome (excludeSpecies net species st) = inr tt
  /\ loading (final (excludeSpecies net species st))
     = (if exclusion_permitted st species then false else loading st).
Proof.
  assert (Hstart : outcome (startNewGame net st) = inr tt
                   /\ loading (final (startNewGame net st)) = false).
  { destruct (startNewGame_cases net st)
      as [(r & d & _ & _ & _ & ->) | (err & tried & _ & _ & ->)]; split; reflexivity. }
  destruct Hstart as [H1 H2]. split; [exact H1 | split; [exact H2 |]].
  destruct (exclusion_permitted st species) eqn:Hp.
  - apply exclusion_permitted_iff in Hp. destruct Hp as (gd & Hg & Ha & Hi).
    destruct (excludeSpecies_cases net st species Hg Ha Hi)
      as [(r & d & _ & _ & _ & ->) | (err & tried & _ & _ & ->)]; split; reflexivity.
  - rewrite (excludeSpecies_rejected net st species Hp). split; reflexivity.
Qed.

(** X2: [startNewGame] issues exactly one request from every state, the
    start screen and an ended game included: a POST to /game/new without
    a body.  A permitted [excludeSpecies] issues exactly one request: a
    POST to /game/exclude whose body holds the id of the game on screen
    and the id and form of the clicked species. *)
Theorem requests_issued net st0 st gd species :
  requests (effects (startNewGame net st0))
  = [{| url := "/game/new"; method := "POST";
        headers := [("Content-Type", "application/json")]; mode := "cors";
        body := None |}]
  /\ (gameData st = Some gd ->
      Species.state species = AVAILABLE ->
      GameData.gameState gd = IN_PROGRESS ->
      requests (effects (excludeSpecies net species st))
      = [{| url := "/game/exclude"; method := "POST";
            headers := [("Content-Type", "application/json")]; mode := "cors";
            body := Some {| ExcludeRequest.gameId := GameData.id gd;
                            ExcludeRequest.speciesId := Species.id species;
                            ExcludeRequest.form := Species.form species |} |}]).
Proof.
  split.
  - destruct (startNewGame_cases net st0)
      as [(r & d & _ & _ & _ & ->) | (err & tried & _ & [-> | ->] & ->)]; reflexivity.
  - intros Hg Ha Hi.
    destruct (excludeSpecies_cases net st species Hg Ha Hi)
      as [(r & d & _ & _ & _ & ->) | (err & tried & _ & [-> | ->] & ->)]; reflexivity.
Qed.

Lemma requests_issued_witness :
  requests (effects (startNewGame net_unreachable initialState))
  = [{| url := "/game/new"; method := "POST";
        headers := [("Content-Type", "application/json")]; mode := "cors";
        body := None |}]
  /\ requests (effects (startNewGame net_unreachable (showing game_lost None)))
     = [{| url := "/game/new"; method := "POST";
           headers := [("Content-Type", "application/json")]; mode := "cors";
           body := None |}]
  /\ requests (effects (excludeSpecies net_unreachable vulpix_kanto
                          (showing game_with_forms None)))
     = [{| url := "/game/exclude"; method := "POST";
           headers := [("Content-Type", "application/json")]; mode := "cors";
           body := Some {| ExcludeRequest.gameId := 2;
                           ExcludeRequest.speciesId := 37;
                           ExcludeRequest.form := None |} |}].
Proof.
  destruct (requests_issued net_unreachable initialState
              (showing game_with_forms None) game_with_forms vulpix_kanto)
    as (Hinit & Hexcl).
  destruct (requests_issued net_unreachable (showing game_lost None)
              (showing game_with_forms None) game_with_forms vulpix_kanto)
    as (Hlost & _).
  split; [exact Hinit | split; [exact Hlost |]].
  exact (Hexcl eq_refl eq_refl eq_refl).
Defined.



(** ** What a response leaves on screen *)



(** X5: after a successful exclusion the colours follow the response:
    every candidate with the id and form of the clicked species is red
    when the response says FAILED, else green when it says [validGuess],
    else orange, whatever its own state; every other candidate has the
    colour of its own state. *)
Theorem feedback_follows_response net st gd species r d candidate :
  gameData st = Some gd ->
  Species.state species = AVAILABLE ->
  GameData.gameState gd = IN_PROGRESS ->
  net (exclusion_request gd species) = FetchResolves r ->
  ok r = true -> json r = JsonParsed (Some d) ->
  let st' := final (excludeSpecies net species st) in
  (Species.id candidate = Species.id species ->
   Species.form candidate = Species.form species ->
   getSpeciesBorderColor st' candidate
   = match GameData.gameState d with
     | FAILED => RED
     | _ => if GameData.validGuess d then GREEN else ORANGE
     end)
  /\ (Species.id candidate <> Species.id species
      \/ Species.form candidate <> Species.form species ->
      getSpeciesBorderColor st' candidate = status_colour candidate).
Proof.
  intros Hg Ha Hi Hnet Hok Hjson st'. subst st'.
  rewrite (excludeSpecies_success net st species Hg Ha Hi Hnet Hok Hjson).
  cbn [final]. split.
  - intros Hid Hform. unfold getSpeciesBorderColor.
    cbn [gameData lastClickedSpecies].
    rewrite (proj2 (is_last_clicked_iff candidate (clicked_of species))
               (conj Hid Hform)).
    destruct (GameData.gameState d); reflexivity.
  - intros Hother. apply getSpeciesBorderColor_other.
    cbn [lastClickedSpecies]. intros clicked E. injection E as <-. exact Hother.
Qed.

Lemma feedback_follows_response_witness :
  getSpeciesBorderColor
    (final (excludeSpecies (net_serving game_lost) bulbasaur
              (showing game_in_progress None)))
    bulbasaur_excluded = RED
  /\ getSpeciesBorderColor
       (final (excludeSpecies (net_serving game_lost) bulbasaur
                 (showing game_in_progress None)))
       charmander = BLUE.
Proof.
  split.
  - apply (feedback_follows_response (net_serving game_lost)
             (showing game_in_progress None) bulbasaur
             (r := {| status := 200; json := JsonParsed (Some game_lost) |})
             bulbasaur_excluded eq_refl eq_refl eq_refl eq_refl eq_refl eq_refl);
      reflexivity.
  - apply (feedback_follows_response (net_serving game_lost)
             (showing game_in_progress None) bulbasaur
             (r := {| status := 200; json := JsonParsed (Some game_lost) |})
             charmander eq_refl eq_refl eq_refl eq_refl eq_refl eq_refl).
    left. discriminate.
Defined.



(** X7: a call of [startNewGame], however it ends, leaves no feedback on
    screen: every candidate has the colour of its own state. *)
Theorem start_clears_feedback net st candidate :
  getSpeciesBorderColor (final (startNewGame net st)) candidate
  = match Species.state candidate with EXCLUDED => GRAY | AVAILABLE => BLUE end.
Proof.
  change (getSpeciesBorderColor (final (startNewGame net st)) candidate
          = status_colour candidate).
  apply getSpeciesBorderColor_other. intros clicked Hclicked.
  destruct (startNewGame_cases net st)
    as [(r & d & _ & _ & _ & E) | (err & tried & _ & _ & E)];
    rewrite E in Hclicked; discriminate.
Qed.

(** ** The view *)

Lemma clickable_permitted st gd species :
  gameData st = Some gd ->
  clickable gd species = exclusion_permitted st species.
Proof. intros Hg. unfold clickable, exclusion_permitted. now rewrite Hg. Qed.

Lemma excludeSpecies_requests net st species :
  requests (effects (excludeSpecies net species st))
  = match gameData st with
    | Some gd => if clickable gd species then [exclusion_request gd species] else []
    | None => []
    end.
Proof.
  destruct (exclusion_permitted st species) eqn:Hp.
  - apply exclusion_permitted_iff in Hp. destruct Hp as (gd & Hg & Ha & Hi).
    rewrite Hg. unfold clickable. rewrite Ha, Hi. cbn [SpeciesState_eqb GameState_eqb andb].
    destruct (excludeSpecies_cases net st species Hg Ha Hi)
      as [(r & d & _ & _ & _ & ->) | (err & tried & _ & [-> | ->] & ->)]; reflexivity.
  - rewrite (excludeSpecies_rejected net st species Hp). cbn [effects requests].
    destruct (gameData st) as [gd|] eqn:Hg; [| reflexivity].
    now rewrite (clickable_permitted st species Hg), Hp.
Qed.

(** X8: the grid and the handler agree on which cards can be played.  A
    card carries the class [clickable] exactly when a click on it issues
    a request; all other clicks do nothing.  When the "Congratulations!"
    or "Game Over!" banner is shown, no card is clickable. *)
Theorem clickable_iff_request net st gd species :
  gameData st = Some gd ->
  (cardClassName (render_card st gd species) = "pokemon-card available clickable"
   <-> requests (effects (pokemonCard_onClick net species st)) <> [])
  /\ (cardClassName (render_card st gd species) <> "pokemon-card available clickable"
      -> pokemonCard_onClick net species st
         = {| outcome := inr tt; final := st; effects := [] |})
  /\ (getGameStatusMessage st <> None ->
      cardClassName (render_card st gd species) <> "pokemon-card available clickable").
Proof.
  intros Hg. unfold pokemonCard_onClick.
  assert (Hclass : cardClassName (render_card st gd species)
                   = "pokemon-card available clickable"
                   <-> clickable gd species = true).
  { cbn [render_card cardClassName]. unfold card_className, clickable.
    destruct (Species.state species), (GameData.gameState gd); cbn;
      split; solve [reflexivity | discriminate]. }
  split; [| split].
  - rewrite Hclass, excludeSpecies_requests, Hg.
    destruct (clickable gd species); split; solve [discriminate | congruence].
  - intros Hno. apply excludeSpecies_rejected.
    rewrite <- (clickable_permitted st species Hg).
    destruct (clickable gd species); [| reflexivity].
    destruct Hno. now apply Hclass.
  - intros Hbanner Hc. apply Hclass in Hc. apply Hbanner.
    unfold getGameStatusMessage. rewrite Hg. unfold clickable in Hc.
    destruct (GameData.gameState gd); try reflexivity;
      rewrite andb_false_r in Hc; discriminate.
Qed.

Lemma clickable_iff_request_witness :
  requests (effects (pokemonCard_onClick net_unreachable charmander
                       (showing game_in_progress None))) <> []
  /\ pokemonCard_onClick net_unreachable charmander (showing game_won None)
     = {| outcome := inr tt; final := showing game_won None; effects := [] |}.
Proof.
  split.
  - apply (clickable_iff_request net_unreachable (showing game_in_progress None)
             charmander eq_refl).
    reflexivity.
  - apply (clickable_iff_request net_unreachable (showing game_won None)
             charmander eq_refl).
    discriminate.
Defined.

Lemma truthy_false_iff s : truthy s = false <-> s = "".
Proof.
  unfold truthy. rewrite negb_false_iff. apply String.eqb_eq.
Qed.

(** The message of a catch clause is empty only for an Error whose own
    message is empty. *)
Lemma catch_message_truthy cors fallback err :
  truthy cors = true -> truthy fallback = true ->
  truthy (catch_message cors fallback err)
  = negb (instanceofError err && (message err =? "")%string).
Proof.
  intros Hcors Hfallback. unfold catch_message.
  destruct err as [m | m |]; cbn [instanceofTypeError instanceofError message andb].
  - destruct m as [|c m]; [reflexivity |].
    destruct (includes "Failed to fetch" (String c m)); [exact Hcors | reflexivity].
  - reflexivity.
  - exact Hfallback.
Qed.

(** X9: after a failed request the error banner shows "Error: " followed
    by the message, unless the value caught is an Error with an empty
    message: then the error cell holds the empty string and no banner is
    rendered at all.  A status outside 2xx always shows its banner. *)
Theorem failure_banner net st0 st gd species :
  gameData st = Some gd ->
  Species.state species = AVAILABLE ->
  GameData.gameState gd = IN_PROGRESS ->
  (forall err, TransportFails (net newGameRequest) err ->
     viewError (render (final (startNewGame net st0)))
     = if instanceofError err && (message err =? "")%string then None
       else Some ("Error: " ++ catch_message cors_message_new
                                 "Failed to start new game" err))
  /\ (forall err, TransportFails (net (exclusion_request gd species)) err ->
     viewError (render (final (excludeSpecies net species st)))
     = if instanceofError err && (message err =? "")%string then None
       else Some ("Error: " ++ catch_message cors_message_exclude
                                 "Failed to exclude species" err))
  /\ (forall r, net newGameRequest = FetchResolves r -> ok r = false ->
     viewError (render (final (startNewGame net st0)))
     = Some ("Error: HTTP error! status: " ++ string_of_status (status r))).
Proof.
  intros Hg Ha Hi. split; [| split].
  - intros err Hfail.
    destruct (startNewGame_failure net st0 eq_refl Hfail) as (tried & -> & _).
    cbn [final render viewError error].
    rewrite catch_message_truthy by reflexivity.
    destruct (instanceofError err && (message err =? "")%string); reflexivity.
  - intros err Hfail.
    destruct (excludeSpecies_failure net st species Hg Ha Hi eq_refl Hfail)
      as (tried & -> & _).
    cbn [final render viewError error].
    rewrite catch_message_truthy by reflexivity.
    destruct (instanceofError err && (message err =? "")%string); reflexivity.
  - intros r Hnet Hok.
    destruct (startNewGame_failure net st0 Hnet (BadStatus r Hok)) as (tried & -> & _).
    cbn [final render viewError error].
    rewrite catch_message_http. reflexivity.
Qed.

Lemma failure_banner_witness :
  TransportFails (net_silent_failure newGameRequest) (ThrownError "")
  /\ viewError (render (final (startNewGame net_silent_failure initialState))) = None
  /\ error (final (startNewGame net_silent_failure initialState)) = Some ""
  /\ viewError (render (final (startNewGame (net_status 502) initialState)))
     = Some "Error: HTTP error! status: 502".
Proof.
  assert (H : TransportFails (net_silent_failure newGameRequest) (ThrownError ""))
    by constructor.
  split; [exact H | split; [| split; [reflexivity |]]].
  - destruct (failure_banner net_silent_failure initialState
                (showing game_in_progress None) charmander
                eq_refl eq_refl eq_refl) as (Hstart & _).
    exact (Hstart _ H).
  - destruct (failure_banner (net_status 502) initialState
                (showing game_in_progress None) charmander
                eq_refl eq_refl eq_refl) as (_ & _ & Hstatus).
    exact (Hstatus _ eq_refl eq_refl).
Defined.

(** ** Card keys *)

Lemma string_of_uint_no_dash d :
  ~ In "-"%char (list_ascii_of_string (NilEmpty.string_of_uint d)).
Proof.
  induction d; cbn; intros H; try (destruct H as [H | H]; [discriminate H | auto]).
  exact H.
Qed.

Lemma string_of_uint_inj d d' :
  NilEmpty.string_of_uint d = NilEmpty.string_of_uint d' -> d = d'.
Proof.
  intros H. apply (f_equal NilEmpty.uint_of_string) in H.
  rewrite !NilEmpty.usu in H. now injection H.
Qed.

(** Two texts cut at their first dash are equal only part by part. *)
Lemma cut_at_dash u v f g :
  ~ In "-"%char (list_ascii_of_string u) ->
  ~ In "-"%char (list_ascii_of_string v) ->
  u ++ "-" ++ f = v ++ "-" ++ g -> u = v /\ f = g.
Proof.
  revert v. induction u as [|c u IH]; intros [|c' v] Hu Hv H; cbn in *.
  - injection H as H. auto.
  - injection H as Hc _. destruct Hv. left. congruence.
  - injection H as Hc _. destruct Hu. left. congruence.
  - injection H as Hc H.
    destruct (IH v) as [-> ->]; auto. now subst.
Qed.

Lemma decimal_cut z z' f g :
  decimal z ++ "-" ++ f = decimal z' ++ "-" ++ g -> z = z' /\ f = g.
Proof.
  unfold decimal.
  assert (Hpos : forall p u, NilEmpty.string_of_uint (Pos.to_uint p) ++ u
                             <> String "-" (NilEmpty.string_of_uint Decimal.Nil)
                             /\ forall t, NilEmpty.string_of_uint (Pos.to_uint p) ++ u
                                          <> String "-" t).
  { intros p u.
    pose proof (string_of_uint_no_dash (Pos.to_uint p)) as Hno.
    pose proof (DecimalPos.Unsigned.to_uint_nonnil p) as Hnil.
    destruct (Pos.to_uint p); try congruence; cbn in *;
      split; intros; intros E; injection E as E _;
      solve [discriminate E | apply Hno; left; congruence]. }
  assert (Hcut : forall d d' : Decimal.uint,
             NilEmpty.string_of_uint d ++ "-" ++ f
             = NilEmpty.string_of_uint d' ++ "-" ++ g -> d = d' /\ f = g).
  { intros d d' H.
    apply cut_at_dash in H; try apply string_of_uint_no_dash.
    destruct H as [H ->]. split; [now apply string_of_uint_inj | reflexivity]. }
  destruct z as [|p|p], z' as [|p'|p']; cbn [Z.to_int NilEmpty.string_of_int]; intros H.
  - apply (Hcut (Decimal.D0 Decimal.Nil) (Decimal.D0 Decimal.Nil)) in H. tauto.
  - apply Hcut in H. destruct H as [H _].
    pose proof (DecimalPos.Unsigned.to_uint_nonzero p') as Hz.
    destruct Hz. now rewrite <- H.
  - cbn in H. discriminate H.
  - apply Hcut in H. destruct H as [H _].
    pose proof (DecimalPos.Unsigned.to_uint_nonzero p) as Hz.
    destruct Hz. now rewrite H.
  - apply Hcut in H. destruct H as [H ->].
    apply DecimalPos.Unsigned.to_uint_inj in H. now subst.
  - exfalso. cbn in H. now apply (proj2 (Hpos p ("-" ++ f))) in H.
  - cbn in H. discriminate H.
  - exfalso. cbn in H. symmetry in H. now apply (proj2 (Hpos p' ("-" ++ g))) in H.
  - cbn in H. injection H as H. apply Hcut in H. destruct H as [H ->].
    apply DecimalPos.Unsigned.to_uint_inj in H. now subst.
Qed.

(** X10: for ids that are safe integers (at most 2^53 - 1 in absolute
    value), two cards get the same React key exactly when their species
    have the same id and the same form once a null or empty form is
    read as 'default'.  So among species of one id, the forms null, ''
    and 'default' share a key, and any other two forms never do. *)
Theorem card_key_collisions a b :
  (Z.abs (Species.id a) <= MAX_SAFE_INTEGER)%Z ->
  (Z.abs (Species.id b) <= MAX_SAFE_INTEGER)%Z ->
  card_key a <> None
  /\ (card_key a = card_key b
      <-> Species.id a = Species.id b
          /\ form_or_default (Species.form a) = form_or_default (Species.form b))
  /\ (form_or_default (Species.form a) = form_or_default (Species.form b)
      <-> Species.form a = Species.form b
          \/ (In (Species.form a) [None; Some ""; Some "default"]
              /\ In (Species.form b) [None; Some ""; Some "default"])).
Proof.
  intros Ha Hb. apply Z.leb_le in Ha, Hb.
  unfold card_key, string_of_id. rewrite Ha, Hb. cbn [option_map].
  split; [discriminate | split].
  - split.
    + intros H. injection H as H. now apply decimal_cut.
    + intros [-> ->]. reflexivity.
  - unfold form_or_default, truthy.
    destruct (Species.form a) as [[|c s]|], (Species.form b) as [[|c' s']|];
      cbn [String.eqb negb In]; split;
      try solve [ intros; right; split; auto
                | intros; left; reflexivity
                | intros H; rewrite <- H; right; split; auto
                | intros H; rewrite H; right; split; auto
                | intros H; left; congruence
                | intros [H | [Ha' Hb']];
                  [ congruence
                  | repeat match goal with
                           | H : _ \/ _ |- _ => destruct H
                           | H : False |- _ => destruct H
                           | H : _ = _ |- _ => try discriminate H; injection H as H
                           end; congruence ] ].
Qed.

Lemma card_key_collisions_witness :
  card_key pikachu_plain = card_key pikachu_default
  /\ card_key vulpix_alola <> card_key vulpix_kanto.
Proof.
  assert (Hsafe : forall z, (Z.abs z <=? MAX_SAFE_INTEGER)%Z = true ->
                            (Z.abs z <= MAX_SAFE_INTEGER)%Z)
    by (intros z; apply Z.leb_le).
  destruct (card_key_collisions pikachu_plain pikachu_default
              (Hsafe 25%Z eq_refl) (Hsafe 25%Z eq_refl)) as (_ & Hsame & _).
  destruct (card_key_collisions vulpix_alola vulpix_kanto
              (Hsafe 37%Z eq_refl) (Hsafe 37%Z eq_refl)) as (_ & Hother & _).
  split.
  - apply Hsame. split; reflexivity.
  - intros H. apply Hother in H. destruct H as [_ H]. discriminate H.
Defined.

(** The keys of the plain and the 'default' form of one id collide,
    though the border colours tell the two apart. *)
Example card_key_collision :
  card_key pikachu_plain = card_key pikachu_default
  /\ getSpeciesBorderColor
       (showing game_after_wrong_guess (Some (clicked_of pikachu_plain)))
       pikachu_plain = ORANGE
  /\ getSpeciesBorderColor
       (showing game_after_wrong_guess (Some (clicked_of pikachu_plain)))
       pikachu_default = BLUE.
Proof. repeat split. Qed.

(** ** Played sessions *)

Lemma dispatch_final ev st :
  final (dispatch ev st)
  = match ev with
    | ClickNewGame answer =>
        if loading st then st else final (startNewGame (fun _ => answer) st)
    | ClickCard species answer =>
        final (excludeSpecies (fun _ => answer) species st)
    end.
Proof.
  destruct ev as [answer | species answer]; [| reflexivity].
  unfold dispatch, newGameButton_onClick. unfold_prims.
  destruct (loading st); [reflexivity |].
  cbn [outcome final effects]. reflexivity.
Qed.

Lemma dispatch_loading ev st :
  loading st = false -> loading (final (dispatch ev st)) = false.
Proof.
  intros Hload. rewrite dispatch_final.
  destruct ev as [answer | species answer].
  - rewrite Hload.
    destruct (startNewGame_cases (fun _ => answer) st)
      as [(r & d & _ & _ & _ & ->) | (err & tried & _ & _ & ->)]; reflexivity.
  - destruct (exclusion_permitted st species) eqn:Hp.
    + apply exclusion_permitted_iff in Hp. destruct Hp as (gd & Hg & Ha & Hi).
      destruct (excludeSpecies_cases (fun _ => answer) st species Hg Ha Hi)
        as [(r & d & _ & _ & _ & ->) | (err & tried & _ & _ & ->)]; reflexivity.
    + now rewrite (excludeSpecies_rejected (fun _ => answer) st species Hp).
Qed.

Lemma play_loading evs st : loading st = false -> loading (play evs st) = false.
Proof.
  revert st. induction evs as [|ev evs IH]; intros st H; cbn [play]; [exact H |].
  apply IH. now apply dispatch_loading.
Qed.

(** An answer that serves no null, given to a successful request, puts
    a game into [gameData]. *)
Lemma serves_no_null_game r d :
  serves_no_null (FetchResolves r) = true ->
  ok r = true -> json r = JsonParsed d -> d <> None.
Proof.
  unfold serves_no_null. intros H Hok Hjson. rewrite Hok, Hjson in H.
  destruct d; [discriminate | discriminate H].
Qed.

Lemma dispatch_keeps_game ev st :
  serves_no_null (answer_of ev) = true ->
  gameData st <> None -> gameData (final (dispatch ev st)) <> None.
Proof.
  intros Hans Hgame. rewrite dispatch_final.
  destruct ev as [answer | species answer]; cbn [answer_of] in Hans.
  - destruct (loading st); [exact Hgame |].
    destruct (startNewGame_cases (fun _ => answer) st)
      as [(r & d & Hnet & Hok & Hjson & ->) | (err & tried & _ & _ & ->)];
      cbn [final gameData]; [| exact Hgame].
    rewrite Hnet in Hans. exact (serves_no_null_game r Hans Hok Hjson).
  - destruct (exclusion_permitted st species) eqn:Hp.
    + apply exclusion_permitted_iff in Hp. destruct Hp as (gd & Hg & Ha & Hi).
      destruct (excludeSpecies_cases (fun _ => answer) st species Hg Ha Hi)
        as [(r & d & Hnet & Hok & Hjson & ->) | (err & tried & _ & _ & ->)];
        cbn [final gameData]; [| discriminate].
      rewrite Hnet in Hans. exact (serves_no_null_game r Hans Hok Hjson).
    + now rewrite (excludeSpecies_rejected (fun _ => answer) st species Hp).
Qed.

Lemma play_keeps_game evs st :
  well_answered evs = true ->
  gameData st <> None -> gameData (play evs st) <> None.
Proof.
  unfold well_answered. revert st.
  induction evs as [|ev evs IH]; intros st Hans Hgame; cbn [play]; [exact Hgame |].
  cbn [forallb] in Hans. apply andb_true_iff in Hans. destruct Hans as [Hev Hevs].
  apply IH; [exact Hevs |]. now apply dispatch_keeps_game.
Qed.

Lemma dispatch_click_has_game ev st :
  serves_no_null (answer_of ev) = true ->
  (lastClickedSpecies st <> None -> gameData st <> None) ->
  lastClickedSpecies (final (dispatch ev st)) <> None ->
  gameData (final (dispatch ev st)) <> None.
Proof.
  intros Hans Hinv. rewrite dispatch_final.
  destruct ev as [answer | species answer]; cbn [answer_of] in Hans.
  - destruct (loading st); [exact Hinv |].
    destruct (startNewGame_cases (fun _ => answer) st)
      as [(r & d & _ & _ & _ & ->) | (err & tried & _ & _ & ->)];
      cbn [final lastClickedSpecies]; congruence.
  - destruct (exclusion_permitted st species) eqn:Hp.
    + apply exclusion_permitted_iff in Hp. destruct Hp as (gd & Hg & Ha & Hi).
      destruct (excludeSpecies_cases (fun _ => answer) st species Hg Ha Hi)
        as [(r & d & Hnet & Hok & Hjson & ->) | (err & tried & _ & _ & ->)];
        cbn [final gameData]; intros _; [| discriminate].
      rewrite Hnet in Hans. exact (serves_no_null_game r Hans Hok Hjson).
    + now rewrite (excludeSpecies_rejected (fun _ => answer) st species Hp).
Qed.

Lemma play_click_has_game evs st :
  well_answered evs = true ->
  (lastClickedSpecies st <> None -> gameData st <> None) ->
  lastClickedSpecies (play evs st) <> None -> gameData (play evs st) <> None.
Proof.
  unfold well_answered. revert st.
  induction evs as [|ev evs IH]; intros st Hans Hinv; cbn [play]; [exact Hinv |].
  cbn [forallb] in Hans. apply andb_true_iff in Hans. destruct Hans as [Hev Hevs].
  apply IH; [exact Hevs |]. now apply dispatch_click_has_game.
Qed.

(** X11: in a session played from the initial state, one click after the
    other and each handler finishing before the next click, every state
    between two clicks has [loading] cleared, whatever the network
    answered, null bodies included; so the "New Game" button that is
    rendered is enabled and a click on it issues the request for a new
    game, whatever failed before.  If no 2xx answer had the body null,
    a last click is recorded only while a game is on screen. *)
Theorem session_at_rest evs answer :
  let st := play evs initialState in
  loading st = false
  /\ (forall b, viewNoGame (render st) = Some b -> buttonDisabled b = false)
  /\ (forall c, viewContent (render st) = Some c ->
                buttonDisabled (contentNewGame c) = false)
  /\ requests (effects (dispatch (ClickNewGame answer) st)) = [newGameRequest]
  /\ (well_answered evs = true ->
      lastClickedSpecies st <> None -> gameData st <> None).
Proof.
  intros st.
  assert (Hload : loading st = false) by (apply play_loading; reflexivity).
  split; [exact Hload | split; [| split; [| split]]].
  - unfold render. cbn [viewNoGame]. destruct (gameData st); [discriminate |].
    intros b E. injection E as <-. exact Hload.
  - unfold render. cbn [viewContent]. destruct (gameData st); [| discriminate].
    intros c E. injection E as <-. exact Hload.
  - unfold dispatch, newGameButton_onClick. unfold_prims. rewrite Hload.
    cbn [outcome final effects app]. apply startNewGame_requests.
  - intros Hans. apply play_click_has_game; [exact Hans |].
    intros H. now destruct H.
Qed.

Lemma session_at_rest_witness :
  well_answered [ClickNewGame (net_serving game_in_progress newGameRequest);
                 ClickCard bulbasaur (FetchRejects ThrownValue)] = true
  /\ gameData (play [ClickNewGame (net_serving game_in_progress newGameRequest);
                     ClickCard bulbasaur (FetchRejects ThrownValue)]
                 initialState) <> None.
Proof.
  split; [reflexivity |].
  destruct (session_at_rest
              [ClickNewGame (net_serving game_in_progress newGameRequest);
               ClickCard bulbasaur (FetchRejects ThrownValue)]
              (FetchRejects ThrownValue)) as (_ & _ & _ & _ & Hclick).
  apply Hclick; [reflexivity | discriminate].
Defined.

(** A 2xx answer with the body null to an exclusion leaves the click
    recorded and no game on screen. *)
Example null_body_after_click :
  play [ClickCard bulbasaur (net_serving_null newGameRequest)]
    (showing game_in_progress None)
  = {| gameData := None; loading := false; error := None;
       lastClickedSpecies := Some (clicked_of bulbasaur) |}.
Proof. reflexivity. Qed.

(** X12: once a game is on screen, a game stays on screen as long as no
    2xx answer has the body null: whatever else is clicked and answered,
    failures included, the game content is rendered and the large start
    button is not.  A 2xx answer with the body null to a new-game
    request is stored like any other and brings the start screen back. *)
Theorem game_screen_persists evs st :
  gameData st <> None ->
  (well_answered evs = true ->
   viewContent (render (play evs st)) <> None
   /\ viewNoGame (render (play evs st)) = None)
  /\ (forall r, ok r = true -> json r = JsonParsed None -> loading st = false ->
      viewContent (render (play [ClickNewGame (FetchResolves r)] st)) = None
      /\ viewNoGame (render (play [ClickNewGame (FetchResolves r)] st)) <> None).
Proof.
  intros Hgame. split.
  - intros Hans.
    pose proof (play_keeps_game evs st Hans Hgame) as H.
    unfold render. cbn [viewContent viewNoGame].
    destruct (gameData (play evs st)); [split; [discriminate | reflexivity] | congruence].
  - intros r Hok Hjson Hload. cbn [play]. rewrite dispatch_final, Hload.
    rewrite (startNewGame_success (fun _ => FetchResolves r) st eq_refl Hok Hjson).
    cbn. split; [reflexivity | discriminate].
Qed.

Lemma game_screen_persists_witness :
  viewNoGame
    (render (play [ClickNewGame (FetchRejects (ThrownTypeError "Failed to fetch"));
                   ClickCard charmander (FetchRejects ThrownValue)]
               (showing game_won None))) = None
  /\ viewNoGame
       (render (play [ClickNewGame (net_serving_null newGameRequest)]
                  (showing game_won None))) <> None.
Proof.
  assert (Hgame : gameData (showing game_won None) <> None) by discriminate.
  split.
  - apply (game_screen_persists
             [ClickNewGame (FetchRejects (ThrownTypeError "Failed to fetch"));
              ClickCard charmander (FetchRejects ThrownValue)]
             (showing game_won None) Hgame).
    reflexivity.
  - destruct (game_screen_persists [] (showing game_won None) Hgame) as (_ & Hnull).
    apply (Hnull {| status := 200; json := JsonParsed None |} eq_refl eq_refl eq_refl).
Defined.

(** X13: a game that has ended is final for the grid: when the game on
    screen is COMPLETED or FAILED, no sequence of card clicks changes
    anything of the state; only "New Game" leads on. *)
Theorem ended_game_ignores_cards evs st gd :
  gameData st = Some gd ->
  GameData.gameState gd <> IN_PROGRESS ->
  forallb is_card_click evs = true ->
  play evs st = st.
Proof.
  intros Hg Hended. induction evs as [|ev evs IH]; cbn [play forallb]; [reflexivity |].
  intros H. apply andb_true_iff in H. destruct H as [Hev Hevs].
  destruct ev as [answer | species answer]; [discriminate Hev |].
  rewrite dispatch_final, excludeSpecies_rejected; [now apply IH |].
  unfold exclusion_permitted. rewrite Hg.
  destruct (GameData.gameState gd); try congruence; apply andb_false_r.
Qed.

Lemma ended_game_ignores_cards_witness :
  play [ClickCard charmander (FetchResolves
                                {| status := 200; json := JsonParsed (Some game_in_progress) |});
        ClickCard bulbasaur (FetchRejects ThrownValue)]
    (showing game_lost (Some (clicked_of charmander)))
  = showing game_lost (Some (clicked_of charmander)).
Proof.
  apply (ended_game_ignores_cards
           [ClickCard charmander
              (FetchResolves {| status := 200; json := JsonParsed (Some game_in_progress) |});
            ClickCard bulbasaur (FetchRejects ThrownValue)]
           (showing game_lost (Some (clicked_of charmander)))
           eq_refl);
    [discriminate | reflexivity].
Defined.

(** ** Responses that arrive late *)

Lemma effects_halves es :
  es = (until_first_fetch es ++ after_first_fetch es)%list.
Proof.
  induction es as [|e es IH]; [reflexivity |].
  destruct e; cbn; f_equal; exact IH.
Qed.

Lemma replay_app st es es' :
  replay st (es ++ es')%list = replay (replay st es) es'.
Proof. apply fold_left_app. Qed.

(** A run is its first half followed by its second. *)
Lemma excludeSpecies_in_halves net species st :
  let es := effects (excludeSpecies net species st) in
  final (excludeSpecies net species st)
  = replay (replay st (until_first_fetch es)) (after_first_fetch es).
Proof.
  intros es. rewrite <- replay_app, <- effects_halves.
  apply excludeSpecies_final_replay.
Qed.

(** X14: the response to an exclusion is applied to whatever is on screen
    when it arrives, without looking at the game it was asked for.  If
    it is a success, its game data replaces the one on screen, be it of
    another game, and [loading] is cleared; if it is a failure, its
    message replaces the error and [loading] is cleared; in both cases
    also when another request is still under way. *)
Theorem late_response net st gd species s :
  gameData st = Some gd ->
  Species.state species = AVAILABLE ->
  GameData.gameState gd = IN_PROGRESS ->
  let arrival := after_first_fetch (effects (excludeSpecies net species st)) in
  (forall r d, net (exclusion_request gd species) = FetchResolves r ->
     ok r = true -> json r = JsonParsed d ->
     replay s arrival
     = {| gameData := d; loading := false; error := error s;
          lastClickedSpecies := lastClickedSpecies s |})
  /\ (forall err, TransportFails (net (exclusion_request gd species)) err ->
     replay s arrival
     = {| gameData := gameData s; loading := false;
          error := Some (catch_message cors_message_exclude
                           "Failed to exclude species" err);
          lastClickedSpecies := lastClickedSpecies s |}).
Proof.
  intros Hg Ha Hi arrival. subst arrival. split.
  - intros r d Hnet Hok Hjson.
    rewrite (excludeSpecies_success net st species Hg Ha Hi Hnet Hok Hjson).
    reflexivity.
  - intros err Hfail.
    destruct (excludeSpecies_failure net st species Hg Ha Hi eq_refl Hfail)
      as (tried & -> & [-> | ->] & _); reflexivity.
Qed.

Lemma late_response_witness :
  replay (showing game_with_forms None)
    (after_first_fetch
       (effects (excludeSpecies (net_serving game_after_wrong_guess) bulbasaur
                   (showing game_in_progress None))))
  = showing game_after_wrong_guess None.
Proof.
  destruct (late_response (net_serving game_after_wrong_guess)
              (showing game_in_progress None) bulbasaur
              (showing game_with_forms None) eq_refl eq_refl eq_refl)
    as (Hsuccess & _).
  exact (Hsuccess _ _ eq_refl eq_refl eq_refl).
Defined.

(** ** The banner and the colour of the last click *)

(** X15: after a successful exclusion the clicked card is red exactly
    when the "Game Over!" banner is shown.  The "Congratulations!"
    banner goes with a green or an orange card, as [validGuess] says. *)
Theorem banner_and_colour net st gd species r d :
  gameData st = Some gd ->
  Species.state species = AVAILABLE ->
  GameData.gameState gd = IN_PROGRESS ->
  net (exclusion_request gd species) = FetchResolves r ->
  ok r = true -> json r = JsonParsed (Some d) ->
  let st' := final (excludeSpecies net species st) in
  (getSpeciesBorderColor st' species = RED
   <-> option_map statusHeading (getGameStatusMessage st') = Some "Game Over!")
  /\ (option_map statusHeading (getGameStatusMessage st') = Some "Congratulations!" ->
      getSpeciesBorderColor st' species
      = if GameData.validGuess d then GREEN else ORANGE).
Proof.
  intros Hg Ha Hi Hnet Hok Hjson st'. subst st'.
  rewrite (excludeSpecies_success net st species Hg Ha Hi Hnet Hok Hjson).
  cbn [final]. unfold getSpeciesBorderColor, getGameStatusMessage.
  cbn [gameData lastClickedSpecies].
  rewrite (proj2 (is_last_clicked_iff species (clicked_of species))
             (conj eq_refl eq_refl)).
  destruct (GameData.gameState d), (GameData.validGuess d); cbn;
    split; try split; intros; try reflexivity; discriminate.
Qed.

Lemma banner_and_colour_witness :
  option_map statusHeading
    (getGameStatusMessage
       (final (excludeSpecies (net_serving game_lost) charmander
                 (showing game_after_wrong_guess None)))) = Some "Game Over!"
  /\ getSpeciesBorderColor
       (final (excludeSpecies (net_serving game_lost) charmander
                 (showing game_after_wrong_guess None))) charmander = RED.
Proof.
  split; [reflexivity |].
  apply (banner_and_colour (net_serving game_lost)
           (showing game_after_wrong_guess None) charmander
           (r := {| status := 200; json := JsonParsed (Some game_lost) |})
           eq_refl eq_refl eq_refl eq_refl eq_refl eq_refl).
  reflexivity.
Defined.

(** ** Which failures count as connection failures *)

Lemma prefix_spec n s :
  String.prefix n s = true <-> exists post, s = n ++ post.
Proof.
  revert s. induction n as [|a n IH]; intros s.
  - destruct s; cbn; split; eauto.
  - destruct s as [|b s]; cbn.
    + split; [discriminate | intros (post & E); discriminate E].
    + destruct (ascii_dec a b) as [-> | Hneq].
      * rewrite IH. split; intros (post & E); exists post; congruence.
      * split; [discriminate | intros (post & E); congruence].
Qed.

Lemma includes_unfold n s :
  includes n s
  = (String.prefix n s
     || match s with
        | EmptyString => false
        | String _ s' => includes n s'
        end).
Proof. destruct s; reflexivity. Qed.

(** [includes] is the search for a substring. *)
Lemma includes_spec n s :
  includes n s = true <-> exists pre post, s = pre ++ n ++ post.
Proof.
  induction s as [|c s IH]; rewrite includes_unfold, orb_true_iff, prefix_spec.
  - split.
    + intros [(post & E) | H]; [exists "", post; exact E | discriminate H].
    + intros ([|c pre] & post & E); [left; eauto | discriminate E].
  - rewrite IH. split.
    + intros [(post & E) | (pre & post & E)].
      * exists "", post. exact E.
      * exists (String c pre), post. cbn. now rewrite E.
    + intros ([|c' pre] & post & E).
      * left. eauto.
      * right. cbn in E. injection E as _ E. eauto.
Qed.

(** X16: a rejected [fetch] is reported as a connection failure exactly
    when the value caught is a TypeError whose message contains the text
    "Failed to fetch" somewhere.  A TypeError worded otherwise, and any
    other Error even with that text, is surfaced with its own message. *)
Theorem connection_failure_detection net st m :
  (net newGameRequest = FetchRejects (ThrownTypeError m) ->
   ((exists pre post, m = pre ++ "Failed to fetch" ++ post) ->
    error (final (startNewGame net st)) = Some cors_message_new)
   /\ (~ (exists pre post, m = pre ++ "Failed to fetch" ++ post) ->
       error (final (startNewGame net st)) = Some m))
  /\ (net newGameRequest = FetchRejects (ThrownError m) ->
      error (final (startNewGame net st)) = Some m).
Proof.
  split.
  - intros Hnet.
    destruct (startNewGame_failure net st Hnet (NetworkFailure _)) as (tried & -> & _).
    cbn [final error]. unfold catch_message.
    cbn [instanceofTypeError instanceofError message andb].
    split; intros H.
    + apply includes_spec in H. now rewrite H.
    + destruct (includes "Failed to fetch" m) eqn:E; [| reflexivity].
      apply includes_spec in E. contradiction.
  - intros Hnet.
    destruct (startNewGame_failure net st Hnet (NetworkFailure _)) as (tried & -> & _).
    reflexivity.
Qed.

Lemma connection_failure_detection_witness :
  error (final (startNewGame
                  (fun _ => FetchRejects
                              (ThrownTypeError "TypeError: Failed to fetch (net)"))
                  initialState)) = Some cors_message_new.
Proof.
  destruct (connection_failure_detection
              (fun _ => FetchRejects (ThrownTypeError "TypeError: Failed to fetch (net)"))
              initialState "TypeError: Failed to fetch (net)") as (Htype & _).
  destruct (Htype eq_refl) as (Hfound & _).
  apply Hfound. exists "TypeError: ", " (net)". reflexivity.
Defined.

(** ** The view while a request is under way *)


